(** * Screw / co-screw algebra of the SCREW package

    A shallow embedding of
    - [gscrew/screw.py]   (point-aware (co)screws),        module [GScrew];
    - [src/screw.py]      (point-free (co)screws),         module [Src];
    - [examples/arm_kinematics.py] (forward kinematics),   module [ArmKinematics].

    Python objects live in a store and are handled through references; a
    method is a computation over the store that returns a value or raises. *)

From Stdlib Require Import ZArith Lia List Bool Ascii String.
From stdpp Require Import base list.
Import ListNotations.
Local Open Scope Z_scope.

(** ** The multivector substrate

    Modelled from the spec: the geometric algebra engine
    ([gscrew/geometric_algebra.py]) is an external collaborator of the screw
    layer.  The screw code only uses the operators listed here; they are the
    interface the code is written against. *)

Class MultiVector (MV : Type) : Type := {
  mv_zero : MV;                      (* [0 * s], the origin / null multivector *)
  mv_add : MV -> MV -> MV;           (* [a + b] *)
  mv_sub : MV -> MV -> MV;           (* [a - b] *)
  mv_neg : MV -> MV;                 (* [-a] *)
  mv_scale : Z -> MV -> MV;          (* [k * a] for a Python int [k] *)
  mv_mul : MV -> MV -> MV;           (* [a * b], geometric product *)
  mv_wedge : MV -> MV -> MV;         (* [a ^ b], outer product *)
  mv_grade : MV -> nat -> MV;        (* [a(k)], grade projection *)
  grade_involution : MV -> MV;       (* [a.grade_involution()] *)
  mv_reverse : MV -> MV;             (* [~a] *)
  mv_ne : MV -> MV -> bool           (* [a != b] *)
}.

Declare Scope mv_scope.
Delimit Scope mv_scope with mv.
Infix "+" := mv_add : mv_scope.
Infix "-" := mv_sub : mv_scope.
Notation "- a" := (mv_neg a) : mv_scope.
Infix "*" := mv_mul : mv_scope.
Infix "^" := mv_wedge : mv_scope.
Notation "~ a" := (mv_reverse a) : mv_scope.

(** The algebraic facts about the substrate that the transport laws rest on:
    value (in)equality, the additive group, and left distributivity of the
    outer product, together with the orthogonality of grade projections. *)

Class MultiVectorLaws (MV : Type) `{MultiVector MV} : Prop := {
  mv_ne_false : forall a b : MV, mv_ne a b = false <-> a = b;
  mv_add_comm : forall a b : MV, (a + b = b + a)%mv;
  mv_add_assoc : forall a b c : MV, (a + (b + c) = (a + b) + c)%mv;
  mv_add_0_r : forall a : MV, (a + mv_zero = a)%mv;
  mv_add_neg : forall a : MV, (a + - a = mv_zero)%mv;
  mv_sub_def : forall a b : MV, (a - b = a + - b)%mv;
  mv_wedge_sub_l : forall a b c : MV, ((a - b) ^ c = (a ^ c) - (b ^ c))%mv;
  mv_grade_grade : forall (a : MV) (j k : nat),
      mv_grade (mv_grade a j) k = if Nat.eqb k j then mv_grade a j else mv_zero
}.

(** Linearity of the operators, used for the facts about sums and scalar
    multiples of (co)screws. *)

Class MultiVectorLinearLaws (MV : Type) `{MultiVector MV} : Prop := {
  mv_wedge_add_l : forall a b c : MV, ((a + b) ^ c = (a ^ c) + (b ^ c))%mv;
  mv_wedge_add_r : forall a b c : MV, (a ^ (b + c) = (a ^ b) + (a ^ c))%mv;
  mv_wedge_sub_r : forall a b c : MV, (a ^ (b - c) = (a ^ b) - (a ^ c))%mv;
  mv_mul_add_l : forall a b c : MV, ((a + b) * c = (a * c) + (b * c))%mv;
  mv_mul_add_r : forall a b c : MV, (a * (b + c) = (a * b) + (a * c))%mv;
  mv_mul_neg_l : forall a b : MV, ((- a) * b = - (a * b))%mv;
  mv_neg_add : forall a b : MV, (- (a + b) = (- a) + (- b))%mv;
  mv_scale_add : forall (j k : Z) (a : MV),
      mv_scale (j + k) a = (mv_scale j a + mv_scale k a)%mv;
  grade_involution_add : forall a b : MV,
      grade_involution (a + b)%mv = (grade_involution a + grade_involution b)%mv;
  mv_grade_add : forall (a b : MV) (k : nat),
      mv_grade (a + b)%mv k = (mv_grade a k + mv_grade b k)%mv;
  mv_grade_zero : forall k : nat, mv_grade (mv_zero : MV) k = mv_zero
}.

(** *** A concrete substrate: the Clifford algebra of a 3-dimensional
    Euclidean space with integer coefficients.

    Modelled from the spec: [GeometricAlgebra(3)] with blades
    [1, e1, e2, e12, e3, e13, e23, e123]; a blade is indexed by the set of
    its generators, grade is the number of generators, the grade involution
    negates odd grades and reversion reverses the generators of a blade. *)

Module Cl3.

Record mv : Type := Mv {
  c_s : Z; c_e1 : Z; c_e2 : Z; c_e12 : Z;
  c_e3 : Z; c_e13 : Z; c_e23 : Z; c_e123 : Z
}.

(** Blade number [b] has generator [e(i+1)] iff bit [i] of [b] is set. *)
Definition coef (a : mv) (b : nat) : Z :=
  match b with
  | 0%nat => c_s a | 1%nat => c_e1 a | 2%nat => c_e2 a | 3%nat => c_e12 a
  | 4%nat => c_e3 a | 5%nat => c_e13 a | 6%nat => c_e23 a | 7%nat => c_e123 a
  | _ => 0
  end.

Definition build (f : nat -> Z) : mv :=
  Mv (f 0%nat) (f 1%nat) (f 2%nat) (f 3%nat) (f 4%nat) (f 5%nat) (f 6%nat) (f 7%nat).

Definition blades : list nat := seq 0 8.

Definition bits (b : nat) : list bool :=
  [Nat.testbit b 0; Nat.testbit b 1; Nat.testbit b 2].

Definition grade_of (b : nat) : nat :=
  length (filter (fun x : bool => x) (bits b)).

(** Number of transpositions needed to sort the generators of [a] followed
    by those of [b]: pairs (i in a, j in b) with j < i. *)
Definition swaps (a b : nat) : nat :=
  ((if Nat.testbit a 1 && Nat.testbit b 0 then 1 else 0)
   + (if Nat.testbit a 2 && Nat.testbit b 0 then 1 else 0)
   + (if Nat.testbit a 2 && Nat.testbit b 1 then 1 else 0))%nat.

Definition signed (negate : bool) (x : Z) : Z := if negate then Z.opp x else x.

Definition sum (f : nat -> Z) : Z :=
  f 0%nat + f 1%nat + f 2%nat + f 3%nat + f 4%nat + f 5%nat + f 6%nat + f 7%nat.

Definition zero : mv := build (fun _ => 0).
Definition add (a b : mv) : mv := build (fun k => coef a k + coef b k).
Definition neg (a : mv) : mv := build (fun k => - coef a k).
Definition sub (a b : mv) : mv := build (fun k => coef a k - coef b k).
Definition scale (z : Z) (a : mv) : mv := build (fun k => z * coef a k).

(** Geometric product: [e_i * e_i = 1], so blade [i] times blade [j] is
    blade [i xor j] up to the reordering sign. *)
Definition mul (a b : mv) : mv :=
  build (fun k => sum (fun i =>
    let j := Nat.lxor i k in
    signed (Nat.odd (swaps i j)) (coef a i * coef b j))).

(** Outer product: as the geometric product, but blades sharing a
    generator annihilate. *)
Definition wedge (a b : mv) : mv :=
  build (fun k => sum (fun i =>
    let j := Nat.lxor i k in
    if Nat.eqb (Nat.land i j) 0
    then signed (Nat.odd (swaps i j)) (coef a i * coef b j)
    else 0)).

Definition grade (a : mv) (g : nat) : mv :=
  build (fun k => if Nat.eqb (grade_of k) g then coef a k else 0).

Definition involution (a : mv) : mv :=
  build (fun k => signed (Nat.odd (grade_of k)) (coef a k)).

Definition reverse (a : mv) : mv :=
  build (fun k => signed (Nat.odd (grade_of k * (grade_of k - 1) / 2)) (coef a k)).

Definition eqb (a b : mv) : bool :=
  forallb (fun k => Z.eqb (coef a k) (coef b k)) blades.

Definition ne (a b : mv) : bool := negb (eqb a b).

(** The canonical basis, as [algebra.blades] provides it. *)
Definition s : mv := Mv 1 0 0 0 0 0 0 0.
Definition e1 : mv := Mv 0 1 0 0 0 0 0 0.
Definition e2 : mv := Mv 0 0 1 0 0 0 0 0.
Definition e12 : mv := Mv 0 0 0 1 0 0 0 0.
Definition e3 : mv := Mv 0 0 0 0 1 0 0 0.
Definition e13 : mv := Mv 0 0 0 0 0 1 0 0.
Definition e23 : mv := Mv 0 0 0 0 0 0 1 0.
Definition e123 : mv := Mv 0 0 0 0 0 0 0 1.

End Cl3.

#[export] Instance Cl3_MultiVector : MultiVector Cl3.mv := {
  mv_zero := Cl3.zero;
  mv_add := Cl3.add;
  mv_sub := Cl3.sub;
  mv_neg := Cl3.neg;
  mv_scale := Cl3.scale;
  mv_mul := Cl3.mul;
  mv_wedge := Cl3.wedge;
  mv_grade := Cl3.grade;
  grade_involution := Cl3.involution;
  mv_reverse := Cl3.reverse;
  mv_ne := Cl3.ne
}.

(** ** Point-aware screws and co-screws: [gscrew/screw.py] *)

Module GScrew.

(** The three classes of the module; [Screw] and [CoScrew] inherit from
    [ScrewBase]. *)
Inductive class : Type := ScrewBase | Screw | CoScrew.

Definition class_eqb (c d : class) : bool :=
  match c, d with
  | ScrewBase, ScrewBase | Screw, Screw | CoScrew, CoScrew => true
  | _, _ => false
  end.

(** [issubclass c d] *)
Definition issubclass (c d : class) : bool :=
  match d with
  | ScrewBase => true
  | _ => class_eqb c d
  end.

(** [type(x)] for the values an operand can be. *)
Inductive pytype : Type :=
| TInstance (c : class)
| TInt
| TMultiVector
| TNoneType.

Inductive exn : Type :=
| TypeError_ref_point
    (* TypeError("ref_point is not a point") *)
| TypeError_other (expected : class) (got : pytype)
    (* TypeError(f"other must be a {expected} instance instead of {type(other)}") *)
| TypeError_scalar (got : pytype)
    (* TypeError(f"scalar must be a scalar instead of {type(scalar)}") *)
| IndexError
    (* list index out of range *)
| DanglingReference.
    (* a reference that is not in the store; no Python program has one *)

(** The spec's names for the two error conditions. *)
Definition InvalidReferencePoint (e : exn) : Prop := e = TypeError_ref_point.
Definition TypeMismatch (e : exn) : Prop :=
  (exists c t, e = TypeError_other c t) \/ (exists t, e = TypeError_scalar t).

Definition loc : Type := nat.

Section WithAlgebra.
Context {MV : Type} {ops : MultiVector MV}.

(** An instance of [ScrewBase] or of a subclass: its class and the three
    attributes set by [__init__]. *)
Record object : Type := Object {
  class_of : class;
  ref_point : MV;
  direction : MV;
  moment : MV
}.

(** The values an operand can be: a reference to an object, a number, a
    multivector or [None].  Numbers are Python ints; floats are not
    modelled, and multivector coefficients are exact. *)
Inductive value : Type :=
| VObj (l : loc)
| VInt (z : Z)
| VMv (m : MV)
| VNone.

(** The store: object number [l] is [st !! l]; a new object is appended. *)
Abbreviation store := (list object) (only parsing).

Inductive result (A : Type) : Type :=
| Return (a : A) (st : store)
| Raise (e : exn).
Arguments Return {A} a st.
Arguments Raise {A} e.

Definition Py (A : Type) : Type := store -> result A.

Definition ret {A} (a : A) : Py A := fun st => Return a st.
Definition raise {A} (e : exn) : Py A := fun _ => Raise e.
Definition bind {A B} (m : Py A) (k : A -> Py B) : Py B :=
  fun st => match m st with
            | Return a st' => k a st'
            | Raise e => Raise e
            end.

Notation "x <- m ;; k" := (bind m (fun x => k))
  (at level 100, m at next level, right associativity).

Definition deref (l : loc) : Py object :=
  fun st => match st !! l with
            | Some o => Return o st
            | None => Raise DanglingReference
            end.

Definition new (o : object) : Py loc :=
  fun st => Return (length st) (st ++ [o]).

(** [self.attr] *)
Definition getattr (attr : object -> MV) (self : loc) : Py MV :=
  o <- deref self ;; ret (attr o).

(** [type(v)] and [isinstance(v, c)] *)
Definition type (v : value) : Py pytype :=
  match v with
  | VObj l => o <- deref l ;; ret (TInstance (class_of o))
  | VInt _ => ret TInt
  | VMv _ => ret TMultiVector
  | VNone => ret TNoneType
  end.

Definition isinstance (v : value) (c : class) : Py bool :=
  t <- type v ;;
  ret match t with
      | TInstance d => issubclass d c
      | _ => false
      end.

(** A value whose reference, if it is one, is in the store; and a value
    that is not an instance of class [c] (no class of the module has a
    subclass of its own, apart from [ScrewBase]). *)
Definition valid_value (st : store) (v : value) : Prop :=
  forall l, v = VObj l -> is_Some (st !! l).

Definition not_instance (st : store) (v : value) (c : class) : Prop :=
  forall l o, v = VObj l -> st !! l = Some o -> class_of o <> c.

(** *** [ScrewBase] *)

(** [cls(ref_point, direction, moment)]: allocation followed by
    [ScrewBase.__init__], which every class inherits. *)
Definition __init__ (cls : class) (ref_point direction moment : MV) : Py loc :=
  if mv_ne (mv_grade ref_point 1) ref_point
  then raise TypeError_ref_point
  else new (Object cls ref_point direction moment).

Definition change_point (self : loc) (new_point : MV) : Py loc :=
  o <- deref self ;;
  __init__ (class_of o)
    new_point
    (direction o)
    (moment o - ((new_point - ref_point o) ^ direction o))%mv.

(** The object that [change_point] passes to the constructor. *)
Definition transported (o : object) (new_point : MV) : object :=
  Object (class_of o) new_point (direction o)
    (moment o - ((new_point - ref_point o) ^ direction o))%mv.

(** *** [Screw] *)

Definition Screw__add__ (self : loc) (other : value) : Py loc :=
  b <- isinstance other Screw ;;
  match b, other with
  | true, VObj other =>
      self_ref_point <- getattr ref_point self ;;
      other_ref_point <- getattr ref_point other ;;
      other <- (if mv_ne self_ref_point other_ref_point
                then change_point other self_ref_point
                else ret other) ;;
      s <- deref self ;;
      o <- deref other ;;
      __init__ Screw
        (ref_point s)
        (direction s + direction o)%mv
        (moment s + moment o)%mv
  | _, _ => t <- type other ;; raise (TypeError_other Screw t)
  end.

Definition Screw__xor__ (self : loc) (other : value) : Py loc :=
  b <- isinstance other Screw ;;
  match b, other with
  | true, VObj other =>
      self_ref_point <- getattr ref_point self ;;
      other_ref_point <- getattr ref_point other ;;
      other <- (if mv_ne self_ref_point other_ref_point
                then change_point other self_ref_point
                else ret other) ;;
      s <- deref self ;;
      o <- deref other ;;
      __init__ Screw
        (ref_point s)
        ((direction s ^ moment o) + (grade_involution (moment s) ^ direction o))%mv
        (moment s ^ moment o)%mv
  | _, _ => t <- type other ;; raise (TypeError_other Screw t)
  end.

(** *** [CoScrew] *)

Definition CoScrew__add__ (self : loc) (other : value) : Py loc :=
  b <- isinstance other CoScrew ;;
  match b, other with
  | true, VObj other =>
      s <- deref self ;;
      o <- deref other ;;
      __init__ CoScrew
        (ref_point s)
        (direction s + direction o)%mv
        (moment s + moment o)%mv
  | _, _ => t <- type other ;; raise (TypeError_other CoScrew t)
  end.

Definition CoScrew__rmul__ (self : loc) (scalar : value) : Py loc :=
  match scalar with
  | VInt k =>
      s <- deref self ;;
      __init__ CoScrew
        (ref_point s)
        (mv_scale k (direction s))
        (mv_scale k (moment s))
  | _ => t <- type scalar ;; raise (TypeError_scalar t)
  end.

(** *** [comoment] *)

Definition comoment (coscrew screw : loc) : Py MV :=
  c <- deref coscrew ;;
  s <- deref screw ;;
  ret (mv_grade
         ((- grade_involution (direction c)) * grade_involution (moment s)
          + direction s * moment c)%mv
         0).

End WithAlgebra.

Arguments object MV : clear implicits.
Arguments value MV : clear implicits.
Arguments result MV A : clear implicits.
Arguments Py MV A : clear implicits.
Arguments Return {MV A} a st.
Arguments Raise {MV A} e.

Abbreviation store MV := (list (object MV)) (only parsing).

Notation "x <- m ;; k" := (bind m (fun x => k))
  (at level 100, m at next level, right associativity).

End GScrew.

(** ** Point-free screws and co-screws: [src/screw.py]

    This variant has no reference point and its constructors validate
    nothing, so its objects are plain immutable values. *)

Module Src.

Inductive class : Type := Screw | CoScrew.

Inductive pytype : Type :=
| TInstance (c : class)
| TInt
| TMultiVector
| TNoneType.

Inductive exn : Type :=
| TypeError_other (expected : class) (got : pytype)
| TypeError_scalar (got : pytype).

Section WithAlgebra.
Context {MV : Type} {ops : MultiVector MV}.

Record object : Type := Object {
  class_of : class;
  direction : MV;
  moment : MV
}.

Inductive value : Type :=
| VObj (o : object)
| VInt (z : Z)
| VMv (m : MV)
| VNone.

Definition type (v : value) : pytype :=
  match v with
  | VObj o => TInstance (class_of o)
  | VInt _ => TInt
  | VMv _ => TMultiVector
  | VNone => TNoneType
  end.

Definition Screw__add__ (self : object) (other : value) : exn + object :=
  match other with
  | VObj (Object Screw other_direction other_moment) =>
      inr (Object Screw
             (direction self + other_direction)%mv
             (moment self + other_moment)%mv)
  | _ => inl (TypeError_other Screw (type other))
  end.

(** In Python [+] binds tighter than [^], and [^] associates to the
    left: the direction argument

      [self.direction ^ other.moment + self.moment.grade_involution() ^ other.direction]

    is [(self.direction ^ (other.moment + gi(self.moment))) ^ other.direction]. *)
Definition Screw__xor__ (self : object) (other : value) : exn + object :=
  match other with
  | VObj (Object Screw other_direction other_moment) =>
      inr (Object Screw
             ((direction self ^ (other_moment + grade_involution (moment self)))
                ^ other_direction)%mv
             (moment self ^ other_moment)%mv)
  | _ => inl (TypeError_other Screw (type other))
  end.

Definition CoScrew__add__ (self : object) (other : value) : exn + object :=
  match other with
  | VObj (Object CoScrew other_direction other_moment) =>
      inr (Object CoScrew
             (direction self + other_direction)%mv
             (moment self + other_moment)%mv)
  | _ => inl (TypeError_other CoScrew (type other))
  end.

Definition CoScrew__rmul__ (self : object) (scalar : value) : exn + object :=
  match scalar with
  | VInt k =>
      inr (Object CoScrew
             (mv_scale k (direction self))
             (mv_scale k (moment self)))
  | _ => inl (TypeError_scalar (type scalar))
  end.

Definition comoment (coscrew screw : object) : MV :=
  ((- grade_involution (direction coscrew)) * grade_involution (moment screw)
   + direction screw * moment coscrew)%mv.

End WithAlgebra.

Arguments object MV : clear implicits.
Arguments value MV : clear implicits.

End Src.

(** ** Forward kinematics of a serial arm: [examples/arm_kinematics.py] *)

Module ArmKinematics.
Import GScrew.

Section Script.
Context {MV : Type} {ops : MultiVector MV}.

(** [CoScrew.composition] is called by the script but is not defined by
    [gscrew/screw.py]; the script is modelled for an arbitrary method. *)
Variable composition : loc -> loc -> Py MV loc.

(** Modelled from the spec: the [resultant] attribute read by the script
    is absent from [gscrew/screw.py]; by section 4.5 the resultant rotor
    of a comotor is its [direction]. *)
Definition resultant : object MV -> MV := direction.

(** [l[i]] on a Python list, negative indices counting from the end. *)
Definition getitem {A : Type} (l : list A) (i : Z) : Py MV A :=
  let n := Z.of_nat (length l) in
  let j := if i <? 0 then i + n else i in
  if (j <? 0) || (n <=? j) then raise IndexError
  else match l !! Z.to_nat j with
       | Some x => ret x
       | None => raise IndexError
       end.

(** [range(start, stop)] *)
Definition range (start stop : Z) : list Z :=
  map (fun k => start + Z.of_nat k) (seq 0 (Z.to_nat (stop - start))).

(** [for x in xs: acc = body(x, acc)] *)
Fixpoint for_each {A S : Type} (xs : list A) (body : A -> S -> Py MV S) (acc : S)
  : Py MV S :=
  match xs with
  | [] => ret acc
  | x :: xs' => acc' <- body x acc ;; for_each xs' body acc'
  end.

(** Creating the joint comotors (lines 28-33); [resultants] holds the
    rotor of each joint, which the script computes from the joint's
    angle and plane of rotation. *)
Definition joint_comotors (nb_joints : Z) (rotation_centers resultants : list MV)
  : Py MV (list loc) :=
  for_each (range 0 nb_joints)
    (fun index joint_comotors =>
       center <- getitem rotation_centers index ;;
       resultant <- getitem resultants index ;;
       comotor <- __init__ CoScrew center resultant mv_zero ;;
       ret (joint_comotors ++ [comotor]))
    [].

(** The body of the loop of lines 30-33, on its own. *)
Definition make_joint (rotation_centers resultants : list MV)
    (index : Z) (joint_comotors : list loc) : Py MV (list loc) :=
  center <- getitem rotation_centers index ;;
  resultant <- getitem resultants index ;;
  comotor <- __init__ CoScrew center resultant mv_zero ;;
  ret (joint_comotors ++ [comotor]).

(** Computing the total motion (lines 37-40). *)
Definition total_motion (nb_joints : Z) (joint_comotors : list loc) : Py MV loc :=
  total_comotor <- getitem joint_comotors (-1) ;;
  for_each (range 1 (nb_joints - 1))
    (fun index total_comotor =>
       joint <- getitem joint_comotors (nb_joints - index - 1) ;;
       composition total_comotor joint)
    total_comotor.

(** Extracting the results (lines 44-51); [O] is the origin [0 * s].
    Returns the two values the script prints.  In Python [~] binds tighter
    than [*], and [*] associates to the left: line 50 is
    [(((~R) * P) * R) + (((2 * (~R)) * T))]. *)
Definition extracting_results (total_comotor : loc) (end_effector : MV)
  : Py MV (MV * MV) :=
  let O := mv_zero in
  total_rotor <- getattr resultant total_comotor ;;
  _ <- change_point total_comotor O ;;
  total_translation <- getattr moment total_comotor ;;
  let final_position :=
    ((((~ total_rotor) * end_effector) * total_rotor)
     + ((mv_scale 2 (~ total_rotor)) * total_translation))%mv in
  ret (total_rotor, mv_grade final_position 1).

(** The script from line 37 on. *)
Definition arm_kinematics (nb_joints : Z) (joint_comotors : list loc) (end_effector : MV)
  : Py MV (MV * MV) :=
  total_comotor <- total_motion nb_joints joint_comotors ;;
  extracting_results total_comotor end_effector.

(** The finalize and apply steps in the words of the spec (section 4.5):
    the total comotor is transported to the origin, and the rotor and the
    translation are read at that point. *)
Definition extracting_results_spec (total_comotor : loc) (end_effector : MV)
  : Py MV (MV * MV) :=
  let O := mv_zero in
  total <- change_point total_comotor O ;;
  resultant_rotor <- getattr direction total ;;
  total_translation <- getattr moment total ;;
  let final_position :=
    ((((~ resultant_rotor) * end_effector) * resultant_rotor)
     + ((mv_scale 2 (~ resultant_rotor)) * total_translation))%mv in
  ret (resultant_rotor, mv_grade final_position 1).

(** The fold in the words of the spec: the running total starts at the
    last joint and is combined with every preceding joint, from the most
    distal to the most proximal. *)
Definition total_motion_spec (joint_comotors : list loc) : Py MV loc :=
  match reverse joint_comotors with
  | [] => raise IndexError
  | last :: preceding =>
      for_each preceding (fun joint total => composition total joint) last
  end.

End Script.

End ArmKinematics.

(** ** Printing: [__repr__] and [show] *)

Module Display.
Import GScrew.

Definition newline : string := String "010"%char EmptyString.
Definition tab : string := String "009"%char EmptyString.

(** The [classname] attribute of each class of [gscrew/screw.py]. *)
Definition classname (c : class) : string :=
  match c with
  | ScrewBase => "ScrewBase"
  | Screw => "Screw"
  | CoScrew => "CoScrew"
  end.

Section WithStr.
Context {MV : Type} {ops : MultiVector MV}.

(** [str(m)] for a multivector [m], as the engine formats it. *)
Variable mv_str : MV -> string.

(** [f"{name}(\n\tdirection={direction}\n\tmoment={moment}\n)"] *)
Definition render (name : string) (direction moment : MV) : string :=
  (name ++ "(" ++ newline ++ tab ++ "direction=" ++ mv_str direction
        ++ newline ++ tab ++ "moment=" ++ mv_str moment ++ newline ++ ")")%string.

(** [ScrewBase.__repr__] *)
Definition __repr__ (self : loc) : Py MV string :=
  o <- deref self ;;
  ret (render (classname (class_of o)) (direction o) (moment o)).

(** [ScrewBase.show]; the result is the text handed to [print]. *)
Definition show (self : loc) (new_point : option MV) : Py MV string :=
  match new_point with
  | None => __repr__ self
  | Some new_point =>
      moved <- change_point self new_point ;;
      __repr__ moved
  end.

(** [Screw.__repr__] and [CoScrew.__repr__] of [src/screw.py], each with its
    class name written in the format string. *)
Definition Src__repr__ (self : Src.object MV) : string :=
  match Src.class_of self with
  | Src.Screw => render "Screw" (Src.direction self) (Src.moment self)
  | Src.CoScrew => render "CoScrew" (Src.direction self) (Src.moment self)
  end.

End WithStr.

End Display.

(** ** From the point-aware to the point-free variant *)

Module Variants.

Section WithAlgebra.
Context {MV : Type} {ops : MultiVector MV}.

(** The point-free object with the class, direction and moment of a
    point-aware one; [src/screw.py] has no [ScrewBase]. *)
Definition drop_point (o : GScrew.object MV) : option (Src.object MV) :=
  match GScrew.class_of o with
  | GScrew.ScrewBase => None
  | GScrew.Screw => Some (Src.Object Src.Screw (GScrew.direction o) (GScrew.moment o))
  | GScrew.CoScrew => Some (Src.Object Src.CoScrew (GScrew.direction o) (GScrew.moment o))
  end.

End WithAlgebra.

End Variants.

(** ** The store over a run of method calls *)

Module Run.
Import GScrew.

Section WithAlgebra.
Context {MV : Type} {ops : MultiVector MV}.

(** Every object of the store is anchored at a point. *)
Definition anchored (st : store MV) : Prop :=
  Forall (fun o => mv_ne (mv_grade (ref_point o) 1) (ref_point o) = false) st.

(** One returning call of a constructor, method or function of
    [gscrew/screw.py] takes the store [st] to [st']. *)
Inductive call : store MV -> store MV -> Prop :=
| call_init cls P D M st l st' :
    __init__ cls P D M st = Return l st' -> call st st'
| call_change_point self Q st l st' :
    change_point self Q st = Return l st' -> call st st'
| call_Screw_add self other st l st' :
    Screw__add__ self other st = Return l st' -> call st st'
| call_Screw_xor self other st l st' :
    Screw__xor__ self other st = Return l st' -> call st st'
| call_CoScrew_add self other st l st' :
    CoScrew__add__ self other st = Return l st' -> call st st'
| call_CoScrew_rmul self scalar st l st' :
    CoScrew__rmul__ self scalar st = Return l st' -> call st st'
| call_comoment coscrew screw st m st' :
    comoment coscrew screw st = Return m st' -> call st st'.

(** A computation that, when it returns, has only appended objects anchored
    at points to a store of such objects. *)
Definition grows {A : Type} (m : Py MV A) : Prop :=
  forall st a st',
    anchored st -> m st = Return a st' -> anchored st' /\ st `prefix_of` st'.

(** The stores a program can be in: it starts with no object. *)
Inductive reachable : store MV -> Prop :=
| reachable_nil : reachable []
| reachable_call st st' : reachable st -> call st st' -> reachable st'.

End WithAlgebra.

End Run.

(** ** Sample data in the concrete algebra *)

Module Fixtures.
Import GScrew.

Definition vec (x y z : Z) : Cl3.mv := Cl3.Mv 0 x y 0 z 0 0 0.

(** A screw at [e1] and a screw at [e2]. *)
Definition screw_a : object Cl3.mv := Object Screw (vec 1 0 0) (Cl3.Mv 2 3 0 0 6 0 0 0) (vec 2 5 1).
Definition screw_b : object Cl3.mv := Object Screw (vec 0 1 0) (vec 0 0 1) (Cl3.Mv 0 0 0 1 0 0 0 0).

(** A co-screw at [e1] and a co-screw at [e2]. *)
Definition coscrew_a : object Cl3.mv := Object CoScrew (vec 1 0 0) Cl3.s (vec 0 0 1).
Definition coscrew_b : object Cl3.mv := Object CoScrew (vec 0 1 0) Cl3.e12 (vec 1 1 0).

Definition sample_store : store Cl3.mv := [screw_a; screw_b; coscrew_a; coscrew_b].

(** Two screws at the origin whose wedge product tells the two readings of
    the direction component apart. *)
Definition wedge_left : object Cl3.mv := Object Screw Cl3.zero Cl3.s Cl3.zero.
Definition wedge_right : object Cl3.mv := Object Screw Cl3.zero Cl3.e2 Cl3.e1.
Definition wedge_store : store Cl3.mv := [wedge_left; wedge_right].

(** The same two screws in the point-free variant. *)
Definition pf_wedge_left : Src.object Cl3.mv := Src.Object Src.Screw Cl3.s Cl3.zero.
Definition pf_wedge_right : Src.object Cl3.mv := Src.Object Src.Screw Cl3.e2 Cl3.e1.

(** A two-joint arm along [e3], both joints at rest (rotor [1]). *)
Definition arm_centers : list Cl3.mv := [vec 0 0 10; vec 0 0 30].
Definition arm_rotors : list Cl3.mv := [Cl3.s; Cl3.s].
Definition arm_end_effector : Cl3.mv := vec 0 0 40.
Definition arm_store : store Cl3.mv :=
  [Object CoScrew (vec 0 0 10) Cl3.s Cl3.zero; Object CoScrew (vec 0 0 30) Cl3.s Cl3.zero].

(** Two screws and a co-screw, all three at [e1]. *)
Definition shared_a : object Cl3.mv := Object Screw (vec 1 0 0) (vec 0 1 0) (vec 0 0 2).
Definition shared_b : object Cl3.mv := Object Screw (vec 1 0 0) (Cl3.Mv 1 0 0 0 3 0 0 0) Cl3.e12.
Definition shared_c : object Cl3.mv := Object CoScrew (vec 1 0 0) (Cl3.Mv 1 0 0 2 0 0 0 0) (vec 1 0 1).
Definition shared_store : store Cl3.mv := [shared_a; shared_b; shared_c].

(** The same arm with its second joint turned by the rotor [e12], and an
    end effector off the axis. *)
Definition turned_rotors : list Cl3.mv := [Cl3.s; Cl3.e12].
Definition turned_end_effector : Cl3.mv := vec 3 4 40.
Definition turned_store : store Cl3.mv :=
  [Object CoScrew (vec 0 0 10) Cl3.s Cl3.zero; Object CoScrew (vec 0 0 30) Cl3.e12 Cl3.zero].

(** A stand-in for the [composition] method that the script calls. *)
Definition sample_composition (total joint : loc) : Py Cl3.mv loc :=
  CoScrew__add__ total (VObj joint).

(** A stand-in for the engine's [str]. *)
Definition sample_str (m : Cl3.mv) : string :=
  if Cl3.eqb m Cl3.zero then "0" else "mv".

End Fixtures.

(** * Properties *)

(** ** The concrete substrate satisfies the laws *)

Example e1_e2 : Cl3.mul Cl3.e1 Cl3.e2 = Cl3.e12. Proof. reflexivity. Qed.
Example e2_e1 : Cl3.mul Cl3.e2 Cl3.e1 = Cl3.neg Cl3.e12. Proof. reflexivity. Qed.
Example e1_e1 : Cl3.mul Cl3.e1 Cl3.e1 = Cl3.s. Proof. reflexivity. Qed.
Example e1we1 : Cl3.wedge Cl3.e1 Cl3.e1 = Cl3.zero. Proof. reflexivity. Qed.
Example e13_e2 : Cl3.mul Cl3.e13 Cl3.e2 = Cl3.neg Cl3.e123. Proof. reflexivity. Qed.
Example e3we12 : Cl3.wedge Cl3.e3 Cl3.e12 = Cl3.e123. Proof. reflexivity. Qed.
Example rev12 : Cl3.reverse Cl3.e12 = Cl3.neg Cl3.e12. Proof. reflexivity. Qed.
Example inv123 : Cl3.involution Cl3.e123 = Cl3.neg Cl3.e123. Proof. reflexivity. Qed.

Lemma Cl3_laws : MultiVectorLaws Cl3.mv.
Proof.
  split.
  - intros [a0 a1 a2 a3 a4 a5 a6 a7] [b0 b1 b2 b3 b4 b5 b6 b7].
    unfold mv_ne; cbn [Cl3_MultiVector]. unfold Cl3.ne, Cl3.eqb.
    rewrite negb_false_iff, forallb_forall. cbn [Cl3.blades seq Cl3.coef].
    split.
    + intros Hk. f_equal; apply Z.eqb_eq.
      all: first [ apply (Hk 0%nat) | apply (Hk 1%nat) | apply (Hk 2%nat) | apply (Hk 3%nat)
                 | apply (Hk 4%nat) | apply (Hk 5%nat) | apply (Hk 6%nat) | apply (Hk 7%nat)]; cbn; tauto.
    + intros E; inversion E; subst. intros k Hk.
      cbn in Hk. repeat (destruct Hk as [<- | Hk]; [apply Z.eqb_refl|]). destruct Hk.
  - intros [] []; cbn; unfold Cl3.add, Cl3.build; cbn; f_equal; ring.
  - intros [] [] []; cbn; unfold Cl3.add, Cl3.build; cbn; f_equal; ring.
  - intros []; cbn; unfold Cl3.add, Cl3.build; cbn; f_equal; ring.
  - intros []; cbn; unfold Cl3.add, Cl3.neg, Cl3.zero, Cl3.build; cbn; f_equal; ring.
  - intros [] []; cbn; unfold Cl3.add, Cl3.neg, Cl3.sub, Cl3.build; cbn; f_equal; ring.
  - intros [] [] []; cbn; unfold Cl3.wedge, Cl3.sub, Cl3.build, Cl3.sum, Cl3.signed; cbn; f_equal; ring.
  - intros a j k. cbn. unfold Cl3.grade, Cl3.zero, Cl3.build. cbn.
    destruct (Nat.eqb_spec k j) as [->|Hkj].
    + f_equal;
        match goal with |- (if ?c then _ else _) = _ => destruct c; reflexivity end.
    + f_equal;
        match goal with |- (if (?n =? k)%nat then _ else _) = _ =>
          destruct (Nat.eqb_spec n k) as [<-|]; [ rewrite (proj2 (Nat.eqb_neq _ _) Hkj) |]; reflexivity end.
Qed.

(** ** The store monad *)

Import GScrew.

Section StoreLemmas.
Context {MV : Type} {ops : MultiVector MV}.
Implicit Types (st : store MV) (o : object MV) (l : loc).

Lemma bind_Return {A B} (m : Py MV A) (k : A -> Py MV B) st a st' :
  m st = Return a st' -> bind m k st = k a st'.
Proof. unfold bind. now intros ->. Qed.

Lemma bind_Raise {A B} (m : Py MV A) (k : A -> Py MV B) st e :
  m st = Raise e -> bind m k st = Raise e.
Proof. unfold bind. now intros ->. Qed.

Lemma deref_Some st l o : st !! l = Some o -> deref l st = Return o st.
Proof. unfold deref. now intros ->. Qed.

Lemma deref_None st l : st !! l = None -> deref l st = Raise DanglingReference.
Proof. unfold deref. now intros ->. Qed.

Lemma getattr_Some (attr : object MV -> MV) st l o :
  st !! l = Some o -> getattr attr l st = Return (attr o) st.
Proof. intros Hl. unfold getattr. now rewrite (bind_Return _ _ _ _ _ (deref_Some _ _ _ Hl)). Qed.

Lemma type_VObj st l o :
  st !! l = Some o -> type (VObj l) st = Return (TInstance (class_of o)) st.
Proof. intros Hl. cbn. now rewrite (bind_Return _ _ _ _ _ (deref_Some _ _ _ Hl)). Qed.

Lemma isinstance_VObj st l o c :
  st !! l = Some o -> isinstance (VObj l) c st = Return (issubclass (class_of o) c) st.
Proof. intros Hl. unfold isinstance. now rewrite (bind_Return _ _ _ _ _ (type_VObj _ _ _ Hl)). Qed.

(** The store only grows: a new object leaves every older one in place. *)
Lemma lookup_new_old st o l x : st !! l = Some x -> (st ++ [o]) !! l = Some x.
Proof. intros Hl. now apply lookup_app_l_Some. Qed.

Lemma lookup_new_fresh st o : (st ++ [o]) !! length st = Some o.
Proof. now rewrite list_lookup_middle. Qed.

Lemma lookup_new_second st o o' : (st ++ [o; o']) !! S (length st) = Some o'.
Proof.
  rewrite lookup_app_r by lia.
  now replace (S (length st) - length st)%nat with 1%nat by lia.
Qed.

Lemma lookup_fresh_None st : st !! length st = None.
Proof. apply lookup_ge_None. lia. Qed.

Lemma init_point cls (P D M : MV) st :
  mv_ne (mv_grade P 1) P = false ->
  __init__ cls P D M st = Return (length st) (st ++ [Object cls P D M]).
Proof. unfold __init__. now intros ->. Qed.

Lemma init_not_point cls (P D M : MV) st :
  mv_ne (mv_grade P 1) P = true ->
  __init__ cls P D M st = Raise TypeError_ref_point.
Proof. unfold __init__. now intros ->. Qed.

Lemma change_point_init st l o (Q : MV) :
  st !! l = Some o ->
  change_point l Q st =
  __init__ (class_of o) Q (direction o)
    (moment o - ((Q - ref_point o) ^ direction o))%mv st.
Proof. intros Hl. unfold change_point. now rewrite (bind_Return _ _ _ _ _ (deref_Some _ _ _ Hl)). Qed.

Lemma change_point_point st l o (Q : MV) :
  st !! l = Some o ->
  mv_ne (mv_grade Q 1) Q = false ->
  change_point l Q st = Return (length st) (st ++ [transported o Q]).
Proof. intros Hl HQ. rewrite (change_point_init _ _ _ _ Hl). now apply init_point. Qed.

End StoreLemmas.

(** ** Construction and change of reference point *)

Section Transport.
Context {MV : Type} {ops : MultiVector MV}.
Implicit Types (st : store MV) (o : object MV) (l : loc).

(** C8. Constructing a (co)screw raises the invalid-reference-point error
    exactly when [ref_point(1) != ref_point]; otherwise it succeeds and the
    new object holds the three arguments unchanged.  In particular, under
    the laws of the substrate, a "point" with a non-zero component of any
    grade other than 1 (so of grade 2 or higher) is always rejected. *)
Theorem C8_construct_validates_reference_point
    (L : MultiVectorLaws MV) (cls : class) (P D M : MV) st :
  (__init__ cls P D M st = Raise TypeError_ref_point
     <-> mv_ne (mv_grade P 1) P = true)
  /\ ((exists e, __init__ cls P D M st = Raise e /\ InvalidReferencePoint e)
     <-> mv_grade P 1 <> P)
  /\ (mv_ne (mv_grade P 1) P = false ->
      exists l st', __init__ cls P D M st = Return l st'
        /\ st !! l = None
        /\ st' !! l = Some (Object cls P D M)
        /\ ref_point (Object cls P D M) = P
        /\ direction (Object cls P D M) = D
        /\ moment (Object cls P D M) = M)
  /\ (forall k, (2 <= k)%nat -> mv_grade P k <> mv_zero ->
      __init__ cls P D M st = Raise TypeError_ref_point).
Proof.
  assert (Hne : mv_ne (mv_grade P 1) P = true <-> mv_grade P 1 <> P).
  { rewrite <- (mv_ne_false (mv_grade P 1) P). destruct (mv_ne (mv_grade P 1) P); split; congruence. }
  repeat split.
  - unfold __init__. destruct (mv_ne (mv_grade P 1) P); [reflexivity | discriminate].
  - apply init_not_point.
  - intros (e & He & _). apply Hne.
    unfold __init__ in He. destruct (mv_ne (mv_grade P 1) P); [reflexivity | discriminate].
  - intros HP. exists TypeError_ref_point. split; [| reflexivity].
    apply init_not_point, Hne, HP.
  - intros HP. exists (length st), (st ++ [Object cls P D M]).
    rewrite (init_point _ _ _ _ _ HP), lookup_new_fresh, lookup_fresh_None. tauto.
  - intros k Hk Hgrade. apply init_not_point, Hne. intros HP.
    apply Hgrade. rewrite <- HP, mv_grade_grade.
    destruct (Nat.eqb_spec k 1); [lia | reflexivity].
Qed.

(** C1. For a (co)screw [s] with reference point [P], direction [D] and
    moment [M], and a point [Q], [s.change_point(Q)] returns a new instance
    of the same class with reference point [Q], direction [D] and moment
    [M - ((Q - P) ^ D)]; [s] and every other object are left as they were. *)
Theorem C1_change_point_transport st l o (Q : MV) :
  st !! l = Some o ->
  mv_ne (mv_grade Q 1) Q = false ->
  exists l' st',
    change_point l Q st = Return l' st'
    /\ st !! l' = None
    /\ l' <> l
    /\ st' !! l' = Some (Object (class_of o) Q (direction o)
                           (moment o - ((Q - ref_point o) ^ direction o))%mv)
    /\ st' !! l = Some o
    /\ (forall k x, st !! k = Some x -> st' !! k = Some x).
Proof.
  intros Hl HQ. exists (length st), (st ++ [transported o Q]).
  rewrite (change_point_point _ _ _ _ Hl HQ).
  repeat split.
  - apply lookup_fresh_None.
  - intros <-. rewrite lookup_fresh_None in Hl. discriminate.
  - apply lookup_new_fresh.
  - now apply lookup_new_old.
  - intros k x. apply lookup_new_old.
Qed.

(** C10. [change_point] hands its result to the validating constructor: for
    a new point [Q] with [Q(1) != Q] it raises the same error as the
    constructor does, and for every other [Q] it returns. *)
Theorem C10_change_point_revalidates st l o (Q : MV) :
  st !! l = Some o ->
  change_point l Q st
    = __init__ (class_of o) Q (direction o)
        (moment o - ((Q - ref_point o) ^ direction o))%mv st
  /\ (change_point l Q st = Raise TypeError_ref_point
      <-> mv_ne (mv_grade Q 1) Q = true)
  /\ ((exists l' st', change_point l Q st = Return l' st')
      <-> mv_ne (mv_grade Q 1) Q = false).
Proof.
  intros Hl. rewrite (change_point_init _ _ _ _ Hl).
  split; [reflexivity |]. unfold __init__, new, raise.
  destruct (mv_ne (mv_grade Q 1) Q); repeat split; try congruence; eauto.
  intros (l' & st' & E). discriminate.
Qed.

End Transport.

Lemma C8_construct_validates_reference_point_witness :
  __init__ Screw Cl3.e12 Cl3.s Cl3.e3 Fixtures.sample_store = Raise TypeError_ref_point
  /\ exists l st',
       __init__ CoScrew Cl3.e1 Cl3.s Cl3.e3 Fixtures.sample_store = Return l st'
       /\ st' !! l = Some (Object CoScrew Cl3.e1 Cl3.s Cl3.e3).
Proof.
  split.
  - apply (C8_construct_validates_reference_point Cl3_laws Screw Cl3.e12 Cl3.s Cl3.e3
             Fixtures.sample_store) with (k := 2%nat); [lia | discriminate].
  - destruct (C8_construct_validates_reference_point Cl3_laws CoScrew Cl3.e1 Cl3.s Cl3.e3
                Fixtures.sample_store) as (_ & _ & Hok & _).
    destruct (Hok eq_refl) as (l & st' & E & _ & Hl & _).
    exists l, st'. split; assumption.
Defined.

Lemma C1_change_point_transport_witness :
  exists l' st',
    change_point 0%nat (Fixtures.vec 0 1 0) Fixtures.sample_store = Return l' st'
    /\ Fixtures.sample_store !! l' = None
    /\ l' <> 0%nat
    /\ st' !! l' = Some (Object Screw (Fixtures.vec 0 1 0) (Cl3.Mv 2 3 0 0 6 0 0 0)
                           (Cl3.Mv 0 4 3 3 1 6 (-6) 0))
    /\ st' !! 0%nat = Some Fixtures.screw_a
    /\ (forall k x, Fixtures.sample_store !! k = Some x -> st' !! k = Some x).
Proof.
  exact (C1_change_point_transport Fixtures.sample_store 0%nat Fixtures.screw_a
           (Fixtures.vec 0 1 0) eq_refl eq_refl).
Defined.

Lemma C10_change_point_revalidates_witness :
  change_point 2%nat Cl3.e23 Fixtures.sample_store = Raise TypeError_ref_point
  /\ exists l' st', change_point 2%nat Cl3.e3 Fixtures.sample_store = Return l' st'.
Proof.
  split.
  - apply (C10_change_point_revalidates Fixtures.sample_store 2%nat Fixtures.coscrew_a Cl3.e23 eq_refl).
    reflexivity.
  - apply (C10_change_point_revalidates Fixtures.sample_store 2%nat Fixtures.coscrew_a Cl3.e3 eq_refl).
    reflexivity.
Defined.

(** ** Consequences of the substrate laws *)

Section Algebra.
Context {MV : Type} {ops : MultiVector MV} {laws : MultiVectorLaws MV}.
Implicit Types a b c : MV.

Lemma mv_add_0_l a : (mv_zero + a = a)%mv.
Proof. rewrite mv_add_comm. apply mv_add_0_r. Qed.

Lemma mv_sub_diag a : (a - a = mv_zero)%mv.
Proof. rewrite mv_sub_def. apply mv_add_neg. Qed.

Lemma mv_add_sub_cancel a b : ((a + b) - b = a)%mv.
Proof. now rewrite mv_sub_def, <- mv_add_assoc, mv_add_neg, mv_add_0_r. Qed.

Lemma mv_sub_move a b c : a = (c + b)%mv -> (a - b = c)%mv.
Proof. intros ->. apply mv_add_sub_cancel. Qed.

Lemma mv_neg_zero : (- mv_zero = mv_zero :> MV)%mv.
Proof. rewrite <- (mv_add_0_l (- mv_zero)%mv). apply mv_add_neg. Qed.

Lemma mv_sub_0_r a : (a - mv_zero = a)%mv.
Proof. now rewrite mv_sub_def, mv_neg_zero, mv_add_0_r. Qed.

Lemma mv_sub_swap_cancel a b : ((a - b) + (b - a) = mv_zero)%mv.
Proof.
  rewrite !mv_sub_def, <- mv_add_assoc, (mv_add_assoc (- b)%mv b).
  now rewrite (mv_add_comm (- b)%mv b), mv_add_neg, mv_add_0_l, mv_add_neg.
Qed.

Lemma mv_wedge_0_l a : (mv_zero ^ a = mv_zero)%mv.
Proof. now rewrite <- (mv_sub_diag a), mv_wedge_sub_l, !mv_sub_diag. Qed.

(** Transport to the point where the (co)screw already is changes nothing. *)
Lemma transport_same_point (P D M : MV) : (M - ((P - P) ^ D) = M)%mv.
Proof. now rewrite mv_sub_diag, mv_wedge_0_l, mv_sub_0_r. Qed.

(** Transport from [P] to [Q] and back restores the moment. *)
Lemma transport_there_and_back (P Q D M : MV) :
  ((M - ((Q - P) ^ D)) - ((P - Q) ^ D) = M)%mv.
Proof.
  rewrite !mv_wedge_sub_l.
  apply mv_sub_move, mv_sub_move.
  now rewrite <- mv_add_assoc, mv_sub_swap_cancel, mv_add_0_r.
Qed.

End Algebra.

Section RoundTrip.
Context {MV : Type} {ops : MultiVector MV} {laws : MultiVectorLaws MV}.
Implicit Types (st : store MV) (o : object MV) (l : loc).

(** C5. For a screw [s] anchored at the point [P] and a point [Q]:
    [s.change_point(P)] has the reference point, direction and moment of
    [s], and so has [s.change_point(Q).change_point(P)]. *)
Theorem C5_transport_identity_and_round_trip st l o (Q : MV) :
  st !! l = Some o ->
  class_of o = Screw ->
  mv_ne (mv_grade (ref_point o) 1) (ref_point o) = false ->
  mv_ne (mv_grade Q 1) Q = false ->
  (exists l1 st1,
      change_point l (ref_point o) st = Return l1 st1
      /\ st1 !! l1 = Some o)
  /\ (exists l1 st1 l2 st2,
      change_point l Q st = Return l1 st1
      /\ change_point l1 (ref_point o) st1 = Return l2 st2
      /\ st2 !! l2 = Some o).
Proof.
  intros Hl _ HP HQ. split.
  - exists (length st), (st ++ [transported o (ref_point o)]).
    split; [now apply change_point_point |].
    rewrite lookup_new_fresh. f_equal.
    unfold transported. rewrite transport_same_point. now destruct o.
  - pose proof (lookup_new_fresh st (transported o Q)) as Hl1.
    eexists _, _, _, _. split; [apply (change_point_point _ _ _ _ Hl HQ) |].
    split; [apply (change_point_point _ _ _ _ Hl1 HP) |].
    rewrite lookup_new_fresh. f_equal.
    unfold transported; cbn. rewrite transport_there_and_back. now destruct o.
Qed.

End RoundTrip.

Lemma C5_transport_identity_and_round_trip_witness :
  (exists l1 st1,
      change_point 0%nat (Fixtures.vec 1 0 0) Fixtures.sample_store = Return l1 st1
      /\ st1 !! l1 = Some Fixtures.screw_a)
  /\ (exists l1 st1 l2 st2,
      change_point 0%nat (Fixtures.vec 0 1 0) Fixtures.sample_store = Return l1 st1
      /\ change_point l1 (Fixtures.vec 1 0 0) st1 = Return l2 st2
      /\ st2 !! l2 = Some Fixtures.screw_a).
Proof.
  exact (C5_transport_identity_and_round_trip (laws := Cl3_laws) Fixtures.sample_store 0%nat
           Fixtures.screw_a (Fixtures.vec 0 1 0) eq_refl eq_refl eq_refl eq_refl).
Defined.

(** ** Addition and wedge product *)

Section Operators.
Context {MV : Type} {ops : MultiVector MV}.
Implicit Types (st : store MV) (o : object MV) (l : loc).

(** The right operand as [Screw.__add__] and [Screw.__xor__] use it: moved
    to the left operand's reference point when the two points differ. *)
Lemma transport_operand st self other s1 s2 :
  st !! self = Some s1 ->
  st !! other = Some s2 ->
  mv_ne (mv_grade (ref_point s1) 1) (ref_point s1) = false ->
  (if mv_ne (ref_point s1) (ref_point s2)
   then change_point other (ref_point s1)
   else ret other) st
  = if mv_ne (ref_point s1) (ref_point s2)
    then Return (length st) (st ++ [transported s2 (ref_point s1)])
    else Return other st.
Proof.
  intros _ Ho HP. destruct (mv_ne (ref_point s1) (ref_point s2)); [| reflexivity].
  now apply change_point_point.
Qed.

Lemma Screw_add_Screw st self l s1 s2 :
  st !! self = Some s1 ->
  st !! l = Some s2 ->
  class_of s2 = Screw ->
  mv_ne (mv_grade (ref_point s1) 1) (ref_point s1) = false ->
  Screw__add__ self (VObj l) st
  = if mv_ne (ref_point s1) (ref_point s2)
    then let s2' := transported s2 (ref_point s1) in
         Return (S (length st))
           (st ++ [s2'; Object Screw (ref_point s1)
                          (direction s1 + direction s2')%mv
                          (moment s1 + moment s2')%mv])
    else Return (length st)
           (st ++ [Object Screw (ref_point s1)
                     (direction s1 + direction s2)%mv
                     (moment s1 + moment s2)%mv]).
Proof.
  intros Hs Hl Hc HP. unfold Screw__add__.
  rewrite (bind_Return _ _ _ _ _ (isinstance_VObj _ _ _ Screw Hl)), Hc. cbn [issubclass class_eqb].
  rewrite (bind_Return _ _ _ _ _ (getattr_Some ref_point _ _ _ Hs)).
  rewrite (bind_Return _ _ _ _ _ (getattr_Some ref_point _ _ _ Hl)).
  unfold bind at 1. rewrite (transport_operand _ _ _ _ _ Hs Hl HP).
  destruct (mv_ne (ref_point s1) (ref_point s2)).
  - rewrite (bind_Return _ _ _ _ _ (deref_Some _ _ _ (lookup_new_old _ _ _ _ Hs))).
    rewrite (bind_Return _ _ _ _ _ (deref_Some _ _ _ (lookup_new_fresh _ _))).
    rewrite (init_point _ _ _ _ _ HP), length_app, <- app_assoc. cbn.
    now rewrite Nat.add_1_r.
  - rewrite (bind_Return _ _ _ _ _ (deref_Some _ _ _ Hs)).
    rewrite (bind_Return _ _ _ _ _ (deref_Some _ _ _ Hl)).
    now rewrite (init_point _ _ _ _ _ HP).
Qed.

Lemma Screw_xor_Screw st self l s1 s2 :
  st !! self = Some s1 ->
  st !! l = Some s2 ->
  class_of s2 = Screw ->
  mv_ne (mv_grade (ref_point s1) 1) (ref_point s1) = false ->
  Screw__xor__ self (VObj l) st
  = if mv_ne (ref_point s1) (ref_point s2)
    then let s2' := transported s2 (ref_point s1) in
         Return (S (length st))
           (st ++ [s2'; Object Screw (ref_point s1)
                          ((direction s1 ^ moment s2')
                           + (grade_involution (moment s1) ^ direction s2'))%mv
                          (moment s1 ^ moment s2')%mv])
    else Return (length st)
           (st ++ [Object Screw (ref_point s1)
                     ((direction s1 ^ moment s2)
                      + (grade_involution (moment s1) ^ direction s2))%mv
                     (moment s1 ^ moment s2)%mv]).
Proof.
  intros Hs Hl Hc HP. unfold Screw__xor__.
  rewrite (bind_Return _ _ _ _ _ (isinstance_VObj _ _ _ Screw Hl)), Hc. cbn [issubclass class_eqb].
  rewrite (bind_Return _ _ _ _ _ (getattr_Some ref_point _ _ _ Hs)).
  rewrite (bind_Return _ _ _ _ _ (getattr_Some ref_point _ _ _ Hl)).
  unfold bind at 1. rewrite (transport_operand _ _ _ _ _ Hs Hl HP).
  destruct (mv_ne (ref_point s1) (ref_point s2)).
  - rewrite (bind_Return _ _ _ _ _ (deref_Some _ _ _ (lookup_new_old _ _ _ _ Hs))).
    rewrite (bind_Return _ _ _ _ _ (deref_Some _ _ _ (lookup_new_fresh _ _))).
    rewrite (init_point _ _ _ _ _ HP), length_app, <- app_assoc. cbn.
    now rewrite Nat.add_1_r.
  - rewrite (bind_Return _ _ _ _ _ (deref_Some _ _ _ Hs)).
    rewrite (bind_Return _ _ _ _ _ (deref_Some _ _ _ Hl)).
    now rewrite (init_point _ _ _ _ _ HP).
Qed.

Lemma Screw_add_other st self (other : value MV) :
  valid_value st other ->
  not_instance st other Screw ->
  exists t, Screw__add__ self other st = Raise (TypeError_other Screw t).
Proof.
  intros Hok Hno. unfold Screw__add__. destruct other as [l | z | m |]; try (eexists; reflexivity).
  destruct (Hok l eq_refl) as [o Hl].
  rewrite (bind_Return _ _ _ _ _ (isinstance_VObj _ _ _ Screw Hl)).
  specialize (Hno l o eq_refl Hl).
  destruct (class_of o) eqn:Hc; try congruence; cbn [issubclass class_eqb];
    rewrite (bind_Return _ _ _ _ _ (type_VObj _ _ _ Hl)); eexists; reflexivity.
Qed.

Lemma CoScrew_add_CoScrew st self l s1 s2 :
  st !! self = Some s1 ->
  st !! l = Some s2 ->
  class_of s2 = CoScrew ->
  mv_ne (mv_grade (ref_point s1) 1) (ref_point s1) = false ->
  CoScrew__add__ self (VObj l) st
  = Return (length st)
      (st ++ [Object CoScrew (ref_point s1)
                (direction s1 + direction s2)%mv
                (moment s1 + moment s2)%mv]).
Proof.
  intros Hs Hl Hc HP. unfold CoScrew__add__.
  rewrite (bind_Return _ _ _ _ _ (isinstance_VObj _ _ _ CoScrew Hl)), Hc. cbn [issubclass class_eqb].
  rewrite (bind_Return _ _ _ _ _ (deref_Some _ _ _ Hs)).
  rewrite (bind_Return _ _ _ _ _ (deref_Some _ _ _ Hl)).
  now rewrite (init_point _ _ _ _ _ HP).
Qed.

Lemma CoScrew_add_other st self (other : value MV) :
  valid_value st other ->
  not_instance st other CoScrew ->
  exists t, CoScrew__add__ self other st = Raise (TypeError_other CoScrew t).
Proof.
  intros Hok Hno. unfold CoScrew__add__. destruct other as [l | z | m |]; try (eexists; reflexivity).
  destruct (Hok l eq_refl) as [o Hl].
  rewrite (bind_Return _ _ _ _ _ (isinstance_VObj _ _ _ CoScrew Hl)).
  specialize (Hno l o eq_refl Hl).
  destruct (class_of o) eqn:Hc; try congruence; cbn [issubclass class_eqb];
    rewrite (bind_Return _ _ _ _ _ (type_VObj _ _ _ Hl)); eexists; reflexivity.
Qed.

End Operators.

Section OperatorClaims.
Context {MV : Type} {ops : MultiVector MV}.
Implicit Types (st : store MV) (o : object MV) (l : loc).

(** C6. [s1 + other] on a screw [s1] raises the type-mismatch error exactly
    when [other] is not a Screw.  For a Screw [s2] it returns
    [Screw(s1.ref_point, s1.direction + s2'.direction, s1.moment + s2'.moment)],
    where [s2'] is [s2] itself when the reference points agree and
    [s2.change_point(s1.ref_point)] when they differ. *)
Theorem C6_Screw_add_transports_right_operand st self s1 (other : value MV) :
  st !! self = Some s1 ->
  mv_ne (mv_grade (ref_point s1) 1) (ref_point s1) = false ->
  valid_value st other ->
  ((exists e, Screw__add__ self other st = Raise e /\ TypeMismatch e)
     <-> not_instance st other Screw)
  /\ (forall l s2,
        other = VObj l -> st !! l = Some s2 -> class_of s2 = Screw ->
        exists s2',
          (if mv_ne (ref_point s1) (ref_point s2)
           then exists l' st', change_point l (ref_point s1) st = Return l' st'
                               /\ st' !! l' = Some s2'
           else s2' = s2)
          /\ exists r st',
               Screw__add__ self other st = Return r st'
               /\ st' !! r = Some (Object Screw (ref_point s1)
                                     (direction s1 + direction s2')%mv
                                     (moment s1 + moment s2')%mv)
               /\ (forall k x, st !! k = Some x -> st' !! k = Some x)).
Proof.
  intros Hs HP Hok. split; [split |].
  - intros (e & He & _) l s2 -> Hl Hc.
    rewrite (Screw_add_Screw _ _ _ _ _ Hs Hl Hc HP) in He.
    destruct (mv_ne (ref_point s1) (ref_point s2)); discriminate.
  - intros Hno. destruct (Screw_add_other st self other Hok Hno) as [t Ht].
    exists (TypeError_other Screw t). split; [assumption |]. left. eauto.
  - intros l s2 -> Hl Hc. rewrite (Screw_add_Screw _ _ _ _ _ Hs Hl Hc HP).
    destruct (mv_ne (ref_point s1) (ref_point s2)) eqn:Hne.
    + exists (transported s2 (ref_point s1)). split.
      * eexists _, _. split; [apply (change_point_point _ _ _ _ Hl HP) |].
        apply lookup_new_fresh.
      * eexists _, _. split; [reflexivity |]. split.
        -- apply lookup_new_second.
        -- intros k x Hk. now apply lookup_app_l_Some.
    + exists s2. split; [reflexivity |].
      eexists _, _. split; [reflexivity |]. split; [apply lookup_new_fresh |].
      intros k x. apply lookup_new_old.
Qed.

(** C7 (amended). [cs1 + other] on a co-screw [cs1] raises the type-mismatch
    error exactly when [other] is not a CoScrew.  For a CoScrew [cs2],
    whether or not it shares the reference point of [cs1], the call
    allocates the single object
    [CoScrew(cs1.ref_point, cs1.direction + cs2.direction, cs1.moment + cs2.moment)]:
    the reference points are not compared and [change_point] is not applied. *)
Theorem C7_CoScrew_add_never_transports st self cs1 (other : value MV) :
  st !! self = Some cs1 ->
  mv_ne (mv_grade (ref_point cs1) 1) (ref_point cs1) = false ->
  valid_value st other ->
  ((exists e, CoScrew__add__ self other st = Raise e /\ TypeMismatch e)
     <-> not_instance st other CoScrew)
  /\ (forall l cs2,
        other = VObj l -> st !! l = Some cs2 -> class_of cs2 = CoScrew ->
        CoScrew__add__ self other st
        = Return (length st)
            (st ++ [Object CoScrew (ref_point cs1)
                      (direction cs1 + direction cs2)%mv
                      (moment cs1 + moment cs2)%mv])).
Proof.
  intros Hs HP Hok. split; [split |].
  - intros (e & He & _) l s2 -> Hl Hc.
    rewrite (CoScrew_add_CoScrew _ _ _ _ _ Hs Hl Hc HP) in He. discriminate.
  - intros Hno. destruct (CoScrew_add_other st self other Hok Hno) as [t Ht].
    exists (TypeError_other CoScrew t). split; [assumption |]. left. eauto.
  - intros l cs2 -> Hl Hc. now apply CoScrew_add_CoScrew.
Qed.

(** C9. The point-aware [comoment] is the grade-0 projection of
    [-gi(cs.direction) * gi(s.moment) + s.direction * cs.moment], which is
    what the point-free [comoment] returns, unprojected, on the same
    direction and moment multivectors. *)
Theorem C9_comoment_is_grade0_of_point_free
    st (coscrew screw : loc) (cs s : object MV) (cs' s' : Src.object MV) :
  st !! coscrew = Some cs ->
  st !! screw = Some s ->
  Src.direction cs' = direction cs -> Src.moment cs' = moment cs ->
  Src.direction s' = direction s -> Src.moment s' = moment s ->
  Src.comoment cs' s'
    = ((- grade_involution (direction cs)) * grade_involution (moment s)
       + direction s * moment cs)%mv
  /\ comoment coscrew screw st
    = Return (mv_grade
                ((- grade_involution (direction cs)) * grade_involution (moment s)
                 + direction s * moment cs)%mv 0) st
  /\ comoment coscrew screw st = Return (mv_grade (Src.comoment cs' s') 0) st.
Proof.
  intros Hc Hs Hd1 Hm1 Hd2 Hm2.
  assert (E : comoment coscrew screw st
              = Return (mv_grade
                ((- grade_involution (direction cs)) * grade_involution (moment s)
                 + direction s * moment cs)%mv 0) st).
  { unfold comoment.
    rewrite (bind_Return _ _ _ _ _ (deref_Some _ _ _ Hc)).
    now rewrite (bind_Return _ _ _ _ _ (deref_Some _ _ _ Hs)). }
  unfold Src.comoment. rewrite Hd1, Hm1, Hd2, Hm2. auto.
Qed.

End OperatorClaims.

Lemma C6_Screw_add_transports_right_operand_witness :
  exists r st',
    Screw__add__ 0%nat (VObj 1%nat) Fixtures.sample_store = Return r st'
    /\ st' !! r = Some (Object Screw (Fixtures.vec 1 0 0)
                          (Cl3.Mv 2 3 0 0 7 0 0 0) (Cl3.Mv 0 2 5 1 1 (-1) 1 0)).
Proof.
  destruct (C6_Screw_add_transports_right_operand (ops := Cl3_MultiVector) Fixtures.sample_store 0%nat
              Fixtures.screw_a (VObj 1%nat) eq_refl eq_refl) as [_ Hadd].
  - intros l [= <-]. now exists Fixtures.screw_b.
  - destruct (Hadd 1%nat Fixtures.screw_b eq_refl eq_refl eq_refl)
      as (s2' & Hs2' & r & st' & E & Hr & _).
    cbn in Hs2'. destruct Hs2' as (l' & st1 & [= <- <-] & [= <-]).
    exists r, st'. split; [exact E | exact Hr].
Defined.

Lemma C7_CoScrew_add_never_transports_witness :
  CoScrew__add__ 2%nat (VObj 3%nat) Fixtures.sample_store
  = Return 4%nat
      (Fixtures.sample_store
         ++ [Object CoScrew (Fixtures.vec 1 0 0) (Cl3.Mv 1 0 0 1 0 0 0 0) (Fixtures.vec 1 1 1)]).
Proof.
  destruct (C7_CoScrew_add_never_transports (ops := Cl3_MultiVector) Fixtures.sample_store 2%nat
              Fixtures.coscrew_a (VObj 3%nat) eq_refl eq_refl) as [_ Hadd].
  - intros l [= <-]. now exists Fixtures.coscrew_b.
  - exact (Hadd 3%nat Fixtures.coscrew_b eq_refl eq_refl eq_refl).
Defined.

(** C7, as stated, fails: the co-screws at [e1] and at [e2] do not share a
    reference point, and their sum is returned, not refused. *)
Lemma C7_CoScrew_add_mismatched_points_counterexample :
  mv_ne (ref_point Fixtures.coscrew_a) (ref_point Fixtures.coscrew_b) = true
  /\ Fixtures.sample_store !! 2%nat = Some Fixtures.coscrew_a
  /\ Fixtures.sample_store !! 3%nat = Some Fixtures.coscrew_b
  /\ ~ (exists e, CoScrew__add__ 2%nat (VObj 3%nat) Fixtures.sample_store = Raise e).
Proof.
  repeat split. intros [e He]. discriminate He.
Qed.

Lemma C9_comoment_is_grade0_of_point_free_witness :
  comoment 2%nat 0%nat Fixtures.sample_store
  = Return (mv_grade (Src.comoment
                        (Src.Object Src.CoScrew Cl3.s (Fixtures.vec 0 0 1))
                        (Src.Object Src.Screw (Cl3.Mv 2 3 0 0 6 0 0 0) (Fixtures.vec 2 5 1))) 0)
      Fixtures.sample_store.
Proof.
  apply (C9_comoment_is_grade0_of_point_free Fixtures.sample_store 2%nat 0%nat
           Fixtures.coscrew_a Fixtures.screw_a); reflexivity.
Defined.

(** ** The wedge product of the point-free variant *)

Section PointFreeWedge.
Context {MV : Type} {ops : MultiVector MV}.

(** What [Screw.__xor__] of [src/screw.py] computes: Python reads the
    unparenthesized direction as [(D1 ^ (M2 + gi(M1))) ^ D2]. *)
Lemma Src_Screw_xor_Screw (self : Src.object MV) (D2 M2 : MV) :
  Src.Screw__xor__ self (Src.VObj (Src.Object Src.Screw D2 M2))
  = inr (Src.Object Src.Screw
           ((Src.direction self ^ (M2 + grade_involution (Src.moment self))) ^ D2)%mv
           (Src.moment self ^ M2)%mv).
Proof. reflexivity. Qed.

End PointFreeWedge.

(** C2. On the screws [Screw(1, 0)] and [Screw(e2, e1)] the claimed
    direction [(D1 ^ M2) + (gi(M1) ^ D2)] is [e1], and the point-aware
    variant returns it; the point-free variant returns [e12]. *)
Theorem C2_point_free_wedge_direction_differs :
  ((direction Fixtures.wedge_left ^ moment Fixtures.wedge_right)
   + (grade_involution (moment Fixtures.wedge_left) ^ direction Fixtures.wedge_right))%mv
  = Cl3.e1
  /\ Screw__xor__ 0%nat (VObj 1%nat) Fixtures.wedge_store
     = Return 2%nat (Fixtures.wedge_store ++ [Object Screw Cl3.zero Cl3.e1 Cl3.zero])
  /\ Src.Screw__xor__ Fixtures.pf_wedge_left (Src.VObj Fixtures.pf_wedge_right)
     = inr (Src.Object Src.Screw Cl3.e12 Cl3.zero).
Proof. repeat split. Qed.

(** ** The arm kinematics script *)

Section ScriptLemmas.
Context {MV : Type} {ops : MultiVector MV}.
Variable composition : loc -> loc -> Py MV loc.
Implicit Types (st : store MV) (o : object MV) (l : loc).

Import ArmKinematics.

Lemma getitem_nonneg {A} (L : list A) (i : Z) (x : A) st :
  0 <= i -> L !! Z.to_nat i = Some x -> getitem L i st = Return x st.
Proof.
  intros Hi Hx. pose proof (lookup_lt_Some _ _ _ Hx) as Hlt.
  unfold getitem.
  rewrite (proj2 (Z.ltb_ge i 0) Hi), (proj2 (Z.ltb_ge i 0) Hi).
  rewrite (proj2 (Z.leb_gt _ _)) by lia.
  cbn. now rewrite Hx.
Qed.

Lemma getitem_last {A} (L : list A) (x : A) st :
  getitem (L ++ [x]) (-1) st = Return x st.
Proof.
  unfold getitem. rewrite length_app. cbn [length].
  change (-1 <? 0) with true. cbv iota.
  rewrite (proj2 (Z.ltb_ge _ 0)) by lia.
  rewrite (proj2 (Z.leb_gt _ _)) by lia. cbn [orb].
  replace (Z.to_nat (-1 + Z.of_nat (length L + 1))) with (length L) by lia.
  now rewrite list_lookup_middle.
Qed.

(** A loop that fetches its operands by index is the loop over the
    operands. *)
Lemma for_each_getitem (L : list loc) (n : Z) (indices : list Z) (joints : list loc) :
  Forall2 (fun index joint => forall st, getitem L (n - index - 1) st = Return joint st)
    indices joints ->
  forall total st,
    for_each indices
      (fun index total => joint <- getitem L (n - index - 1) ;; composition total joint)
      total st
    = for_each joints (fun joint total => composition total joint) total st.
Proof.
  induction 1 as [| index joint indices joints Hget _ IH]; intros total st; [reflexivity |].
  cbn [for_each]. unfold bind at 1 2. rewrite Hget.
  unfold bind at 2. destruct (composition total joint st); [apply IH | reflexivity].
Qed.

(** The operands of the loop of lines 39-40, for a chain
    [j0 :: mid ++ [jl]] of [nb_joints] joints: the joints of [mid], from
    the last to the first.  The base joint [j0] is not among them. *)
Lemma total_motion_operands (j0 jl : loc) (mid : list loc) st :
  total_motion composition (Z.of_nat (length (j0 :: mid ++ [jl]))) (j0 :: mid ++ [jl]) st
  = for_each (reverse mid) (fun joint total => composition total joint) jl st.
Proof.
  unfold total_motion.
  rewrite (bind_Return _ _ _ _ _ (getitem_last (j0 :: mid) jl st)).
  apply for_each_getitem.
  apply Forall2_same_length_lookup_2.
  { unfold range. rewrite length_map, length_seq, length_reverse.
    cbn [length]. rewrite length_app. cbn [length]. lia. }
  intros i index joint Hindex Hjoint st'.
  pose proof (lookup_lt_Some _ _ _ Hjoint) as Hi. rewrite length_reverse in Hi.
  unfold range in Hindex. rewrite list_lookup_fmap in Hindex.
  destruct (seq 0 _ !! i) as [k |] eqn:Hk; [| discriminate].
  apply lookup_seq in Hk. destruct Hk as [-> _]. injection Hindex as <-.
  rewrite reverse_lookup in Hjoint by assumption.
  apply getitem_nonneg.
  - cbn [length]. rewrite length_app. cbn [length]. lia.
  - cbn [length]. rewrite length_app. cbn [length].
    match goal with
    | |- _ !! ?k = _ => replace k with (S (length mid - S i)) by lia
    end.
    change ((mid ++ [jl]) !! (length mid - S i)%nat = Some joint).
    rewrite lookup_app_l by lia. exact Hjoint.
Qed.

(** The fold the spec describes takes every preceding joint, [j0] last. *)
Lemma total_motion_spec_operands (j0 jl : loc) (mid : list loc) :
  total_motion_spec composition (j0 :: mid ++ [jl])
  = for_each (reverse mid ++ [j0]) (fun joint total => composition total joint) jl.
Proof.
  unfold total_motion_spec.
  now rewrite reverse_cons, reverse_app, reverse_singleton, <- app_assoc.
Qed.

(** Lines 44-51 read the rotor and the moment of [total_comotor] itself;
    the object built by [change_point] is in the store and is not read. *)
Lemma extracting_results_eq (total_comotor : loc) o (end_effector : MV) st :
  st !! total_comotor = Some o ->
  mv_ne (mv_grade mv_zero 1) mv_zero = false ->
  extracting_results total_comotor end_effector st
  = Return (direction o,
            mv_grade ((((~ direction o) * end_effector) * direction o)
                      + ((mv_scale 2 (~ direction o)) * moment o))%mv 1)
      (st ++ [transported o mv_zero]).
Proof.
  intros Ht HO. unfold extracting_results.
  rewrite (bind_Return _ _ _ _ _ (getattr_Some _ _ _ _ Ht)).
  rewrite (bind_Return _ _ _ _ _ (change_point_point _ _ _ _ Ht HO)).
  now rewrite (bind_Return _ _ _ _ _ (getattr_Some _ _ _ _ (lookup_new_old _ _ _ _ Ht))).
Qed.

Lemma extracting_results_spec_eq (total_comotor : loc) o (end_effector : MV) st :
  st !! total_comotor = Some o ->
  mv_ne (mv_grade mv_zero 1) mv_zero = false ->
  extracting_results_spec total_comotor end_effector st
  = Return (direction o,
            mv_grade ((((~ direction o) * end_effector) * direction o)
                      + ((mv_scale 2 (~ direction o))
                         * (moment o - ((mv_zero - ref_point o) ^ direction o))))%mv 1)
      (st ++ [transported o mv_zero]).
Proof.
  intros Ht HO. unfold extracting_results_spec.
  rewrite (bind_Return _ _ _ _ _ (change_point_point _ _ _ _ Ht HO)).
  rewrite (bind_Return _ _ _ _ _ (getattr_Some _ _ _ _ (lookup_new_fresh _ _))).
  now rewrite (bind_Return _ _ _ _ _ (getattr_Some _ _ _ _ (lookup_new_fresh _ _))).
Qed.

End ScriptLemmas.

Section ScriptClaims.
Context {MV : Type} {ops : MultiVector MV}.
Variable composition : loc -> loc -> Py MV loc.
Implicit Types (st : store MV).

Import ArmKinematics.

(** Replacing the comotor of the base joint does not change the total. *)
Lemma total_motion_ignores_base_joint (j0 j0' jl : loc) (mid : list loc) st :
  total_motion composition (Z.of_nat (length (j0 :: mid ++ [jl]))) (j0 :: mid ++ [jl]) st
  = total_motion composition (Z.of_nat (length (j0' :: mid ++ [jl]))) (j0' :: mid ++ [jl]) st.
Proof. now rewrite !total_motion_operands. Qed.

(** C4. For the six joints of the script, stored at [0 .. 5], the loop of
    lines 37-40 starts from joint 5 and calls [composition] with joints 4,
    3, 2 and 1; the fold of the spec goes on to the base joint 0. *)
Theorem C4_fold_stops_before_base_joint st :
  total_motion composition 6 [0; 1; 2; 3; 4; 5]%nat st
  = (t <- composition 5%nat 4%nat ;;
     t <- composition t 3%nat ;;
     t <- composition t 2%nat ;;
     composition t 1%nat) st
  /\ total_motion_spec composition [0; 1; 2; 3; 4; 5]%nat st
  = (t <- composition 5%nat 4%nat ;;
     t <- composition t 3%nat ;;
     t <- composition t 2%nat ;;
     t <- composition t 1%nat ;;
     composition t 0%nat) st.
Proof.
  split.
  - etransitivity;
      [exact (total_motion_operands composition 0%nat 5%nat [1; 2; 3; 4]%nat st) |].
    cbn [reverse rev_append for_each]. unfold bind.
    repeat match goal with
           | |- context [composition ?a ?b ?s] => destruct (composition a b s); try reflexivity
           end.
  - etransitivity;
      [exact (f_equal (fun m => m st)
                (total_motion_spec_operands composition 0%nat 5%nat [1; 2; 3; 4]%nat)) |].
    cbn [reverse rev_append for_each app]. unfold bind.
    repeat match goal with
           | |- context [composition ?a ?b ?s] => destruct (composition a b s); try reflexivity
           end.
Qed.

End ScriptClaims.

(** C3. A two-joint arm along [e3] with both joints at rest, end effector
    at [40 e3]: the total comotor is the one anchored at [30 e3], and the
    script computes the final position from its moment as it stands there,
    [0], giving [40 e3]; with the moment transported to the origin, [30 e3],
    the formula gives [100 e3]. *)
Theorem C3_translation_is_not_transported
    (composition : loc -> loc -> Py Cl3.mv loc) :
  ArmKinematics.joint_comotors 2 Fixtures.arm_centers Fixtures.arm_rotors []
  = Return [0; 1]%nat Fixtures.arm_store
  /\ ArmKinematics.arm_kinematics composition 2 [0; 1]%nat Fixtures.arm_end_effector
       Fixtures.arm_store
     = Return (Cl3.s, Fixtures.vec 0 0 40)
         (Fixtures.arm_store ++ [Object CoScrew Cl3.zero Cl3.s (Fixtures.vec 0 0 30)])
  /\ (total_comotor <- ArmKinematics.total_motion composition 2 [0; 1]%nat ;;
      ArmKinematics.extracting_results_spec total_comotor Fixtures.arm_end_effector)
       Fixtures.arm_store
     = Return (Cl3.s, Fixtures.vec 0 0 100)
         (Fixtures.arm_store ++ [Object CoScrew Cl3.zero Cl3.s (Fixtures.vec 0 0 30)]).
Proof. repeat split. Qed.

(** The final position with a rotor that is not [1]: for [R = e12] and
    [P = 3 e1 + 4 e2 + 40 e3], [((~R) * P) * R] is [-3 e1 - 4 e2 + 40 e3],
    a half turn about [e3]; the translation term is as above. *)
Example final_position_of_turned_arm (composition : loc -> loc -> Py Cl3.mv loc) :
  ArmKinematics.joint_comotors 2 Fixtures.arm_centers Fixtures.turned_rotors []
  = Return [0; 1]%nat Fixtures.turned_store
  /\ ArmKinematics.arm_kinematics composition 2 [0; 1]%nat Fixtures.turned_end_effector
       Fixtures.turned_store
     = Return (Cl3.e12, Fixtures.vec (-3) (-4) 40)
         (Fixtures.turned_store ++ [Object CoScrew Cl3.zero Cl3.e12 (Cl3.Mv 0 0 0 0 0 0 0 30)])
  /\ (total_comotor <- ArmKinematics.total_motion composition 2 [0; 1]%nat ;;
      ArmKinematics.extracting_results_spec total_comotor Fixtures.turned_end_effector)
       Fixtures.turned_store
     = Return (Cl3.e12, Fixtures.vec (-3) (-4) 100)
         (Fixtures.turned_store ++ [Object CoScrew Cl3.zero Cl3.e12 (Cl3.Mv 0 0 0 0 0 0 0 30)]).
Proof. repeat split. Qed.

(** * Further properties *)

(** ** Linearity in the concrete substrate *)

Lemma Cl3_linear_laws : MultiVectorLinearLaws Cl3.mv.
Proof.
  split.
  - intros [] [] []; cbn; unfold Cl3.wedge, Cl3.add, Cl3.build, Cl3.sum, Cl3.signed; cbn; f_equal; ring.
  - intros [] [] []; cbn; unfold Cl3.wedge, Cl3.add, Cl3.build, Cl3.sum, Cl3.signed; cbn; f_equal; ring.
  - intros [] [] []; cbn; unfold Cl3.wedge, Cl3.sub, Cl3.build, Cl3.sum, Cl3.signed; cbn; f_equal; ring.
  - intros [] [] []; cbn; unfold Cl3.mul, Cl3.add, Cl3.build, Cl3.sum, Cl3.signed; cbn; f_equal; ring.
  - intros [] [] []; cbn; unfold Cl3.mul, Cl3.add, Cl3.build, Cl3.sum, Cl3.signed; cbn; f_equal; ring.
  - intros [] []; cbn; unfold Cl3.mul, Cl3.neg, Cl3.build, Cl3.sum, Cl3.signed; cbn; f_equal; ring.
  - intros [] []; cbn; unfold Cl3.neg, Cl3.add, Cl3.build; cbn; f_equal; ring.
  - intros j k []; cbn; unfold Cl3.scale, Cl3.add, Cl3.build; cbn; f_equal; ring.
  - intros [] []; cbv - [Z.add Z.opp]; f_equal; ring.
  - intros [] [] k; cbn; unfold Cl3.grade, Cl3.add, Cl3.build; cbn; f_equal;
      match goal with |- (if ?c then _ else _) = _ => destruct c; ring end.
  - intros k; cbn; unfold Cl3.grade, Cl3.zero, Cl3.build; cbn; f_equal;
      match goal with |- (if ?c then _ else _) = _ => destruct c; reflexivity end.
Qed.

(** ** More consequences of the substrate laws *)

Section MoreAlgebra.
Context {MV : Type} {ops : MultiVector MV} {laws : MultiVectorLaws MV}.
Implicit Types a b c d : MV.

Lemma mv_ne_refl a : mv_ne a a = false.
Proof. now apply mv_ne_false. Qed.

Lemma mv_ne_true a b : mv_ne a b = true <-> a <> b.
Proof.
  rewrite <- (mv_ne_false a b). destruct (mv_ne a b); split; congruence.
Qed.

Lemma mv_ne_sym a b : mv_ne a b = mv_ne b a.
Proof.
  destruct (mv_ne b a) eqn:E.
  - apply mv_ne_true. apply mv_ne_true in E. congruence.
  - apply mv_ne_false. apply mv_ne_false in E. congruence.
Qed.

Lemma mv_sub_add_cancel a b : ((a - b) + b = a)%mv.
Proof.
  rewrite mv_sub_def, <- mv_add_assoc, (mv_add_comm (- b)%mv b), mv_add_neg.
  apply mv_add_0_r.
Qed.

Lemma mv_sub_add_sub a b c : ((a - b) + (b - c) = a - c)%mv.
Proof.
  rewrite (mv_sub_def b c), mv_add_assoc, mv_sub_add_cancel.
  symmetry. apply mv_sub_def.
Qed.

Lemma mv_add_swap a b c d : ((a + b) + (c + d) = (a + c) + (b + d))%mv.
Proof.
  rewrite <- (mv_add_assoc a b), (mv_add_assoc b c d), (mv_add_comm b c).
  now rewrite <- (mv_add_assoc c b d), (mv_add_assoc a c).
Qed.

(** Transport from [P] to [Q] and on to [R] is transport from [P] to [R]. *)
Lemma transport_via (P Q R D M : MV) :
  ((M - ((Q - P) ^ D)) - ((R - Q) ^ D) = M - ((R - P) ^ D))%mv.
Proof.
  rewrite !mv_wedge_sub_l.
  apply mv_sub_move, mv_sub_move.
  now rewrite <- mv_add_assoc, mv_sub_add_sub, mv_sub_add_cancel.
Qed.

(** The moment of the sum of two screws, moved from the point of the first
    to the point of the second. *)
Lemma sum_moved (P1 P2 D1 D2 M1 M2 : MV) (lin : MultiVectorLinearLaws MV) :
  ((M1 + (M2 - ((P1 - P2) ^ D2))) - ((P2 - P1) ^ (D1 + D2))
   = M2 + (M1 - ((P2 - P1) ^ D1)))%mv.
Proof.
  rewrite mv_wedge_add_r.
  apply mv_sub_move.
  rewrite (mv_add_assoc (M2 + _)%mv), <- (mv_add_assoc M2), mv_sub_add_cancel.
  rewrite (mv_add_comm M2 M1), <- mv_add_assoc. f_equal.
  apply mv_sub_move.
  rewrite <- mv_add_assoc, !mv_wedge_sub_l, mv_sub_swap_cancel.
  symmetry. apply mv_add_0_r.
Qed.

End MoreAlgebra.

(** ** Transport composes, and the operators respect it *)

Section TransportExtras.
Context {MV : Type} {ops : MultiVector MV} {laws : MultiVectorLaws MV}.
Implicit Types (st : store MV) (o : object MV) (l : loc).

(** X1. Moving a (co)screw to [Q] and then to [R] gives, field by field, the
    (co)screw obtained by moving it to [R] directly. *)
Theorem change_point_twice st l o (Q R : MV) :
  st !! l = Some o ->
  mv_ne (mv_grade Q 1) Q = false ->
  mv_ne (mv_grade R 1) R = false ->
  exists l1 st1 l2 st2 l3 st3 o',
    change_point l Q st = Return l1 st1
    /\ change_point l1 R st1 = Return l2 st2
    /\ change_point l R st = Return l3 st3
    /\ st2 !! l2 = Some o'
    /\ st3 !! l3 = Some o'.
Proof.
  intros Hl HQ HR.
  pose proof (lookup_new_fresh st (transported o Q)) as Hl1.
  eexists _, _, _, _, _, _, _.
  split; [apply (change_point_point _ _ _ _ Hl HQ) |].
  split; [apply (change_point_point _ _ _ _ Hl1 HR) |].
  split; [apply (change_point_point _ _ _ _ Hl HR) |].
  rewrite !lookup_new_fresh. split; [| reflexivity].
  unfold transported; cbn. now rewrite transport_via.
Qed.

Lemma Screw_xor_other st self (other : value MV) :
  valid_value st other ->
  not_instance st other Screw ->
  exists t, Screw__xor__ self other st = Raise (TypeError_other Screw t).
Proof.
  intros Hok Hno. unfold Screw__xor__. destruct other as [l | z | m |]; try (eexists; reflexivity).
  destruct (Hok l eq_refl) as [o Hl].
  rewrite (bind_Return _ _ _ _ _ (isinstance_VObj _ _ _ Screw Hl)).
  specialize (Hno l o eq_refl Hl).
  destruct (class_of o) eqn:Hc; try congruence; cbn [issubclass class_eqb];
    rewrite (bind_Return _ _ _ _ _ (type_VObj _ _ _ Hl)); eexists; reflexivity.
Qed.

(** X2. [s1 ^ other] on a screw [s1] of [gscrew/screw.py] raises the
    type-mismatch error exactly when [other] is not a Screw.  For a Screw
    [s2] it returns the screw at the point of [s1] with direction
    [(D1 ^ M2') + (gi(M1) ^ D2)] and moment [M1 ^ M2'], where [M2'] is the
    moment of [s2] as it stands when the two points agree and the moment of
    [s2] moved to the point of [s1] when they differ. *)
Theorem Screw_xor_behaviour st self s1 (other : value MV) :
  st !! self = Some s1 ->
  mv_ne (mv_grade (ref_point s1) 1) (ref_point s1) = false ->
  valid_value st other ->
  ((exists e, Screw__xor__ self other st = Raise e /\ TypeMismatch e)
     <-> not_instance st other Screw)
  /\ (forall l s2,
        other = VObj l -> st !! l = Some s2 -> class_of s2 = Screw ->
        exists r st',
          Screw__xor__ self other st = Return r st'
          /\ st' !! r
             = Some (Object Screw (ref_point s1)
                       ((direction s1
                         ^ (if mv_ne (ref_point s1) (ref_point s2)
                            then moment s2 - ((ref_point s1 - ref_point s2) ^ direction s2)
                            else moment s2))
                        + (grade_involution (moment s1) ^ direction s2))%mv
                       (moment s1
                        ^ (if mv_ne (ref_point s1) (ref_point s2)
                           then moment s2 - ((ref_point s1 - ref_point s2) ^ direction s2)
                           else moment s2))%mv)
          /\ st' !! self = Some s1
          /\ st' !! l = Some s2).
Proof.
  intros Hs HP Hok. split; [split |].
  - intros (e & He & _) l s2 -> Hl Hc.
    rewrite (Screw_xor_Screw _ _ _ _ _ Hs Hl Hc HP) in He.
    destruct (mv_ne (ref_point s1) (ref_point s2)); discriminate.
  - intros Hno. destruct (Screw_xor_other st self other Hok Hno) as [t Ht].
    exists (TypeError_other Screw t). split; [assumption |]. left. eauto.
  - intros l s2 -> Hl Hc. rewrite (Screw_xor_Screw _ _ _ _ _ Hs Hl Hc HP).
    destruct (mv_ne (ref_point s1) (ref_point s2)).
    + eexists _, _. split; [reflexivity |].
      split; [apply lookup_new_second |].
      split; now apply lookup_app_l_Some.
    + eexists _, _. split; [reflexivity |].
      split; [apply lookup_new_fresh |].
      split; now apply lookup_new_old.
Qed.

(** X3. Moving the right operand to the point of the left one beforehand does
    not change a sum or a wedge product of screws: [s1 + s2] and
    [s1 + s2.change_point(s1.ref_point)] have the same fields, and so have
    [s1 ^ s2] and [s1 ^ s2.change_point(s1.ref_point)]. *)
Theorem Screw_operators_transport_first st self l s1 s2 :
  st !! self = Some s1 ->
  st !! l = Some s2 ->
  class_of s2 = Screw ->
  mv_ne (mv_grade (ref_point s1) 1) (ref_point s1) = false ->
  exists l' st1,
    change_point l (ref_point s1) st = Return l' st1
    /\ (exists r st2 r' st2' o,
           Screw__add__ self (VObj l') st1 = Return r st2
           /\ Screw__add__ self (VObj l) st = Return r' st2'
           /\ st2 !! r = Some o /\ st2' !! r' = Some o)
    /\ (exists r st2 r' st2' o,
           Screw__xor__ self (VObj l') st1 = Return r st2
           /\ Screw__xor__ self (VObj l) st = Return r' st2'
           /\ st2 !! r = Some o /\ st2' !! r' = Some o).
Proof.
  intros Hs Hl Hc HP.
  pose proof (lookup_new_fresh st (transported s2 (ref_point s1))) as Hl'.
  pose proof (lookup_new_old st (transported s2 (ref_point s1)) _ _ Hs) as Hs'.
  assert (Hc' : class_of (transported s2 (ref_point s1)) = Screw) by exact Hc.
  assert (Hmoment : mv_ne (ref_point s1) (ref_point s2) = false ->
                    moment (transported s2 (ref_point s1)) = moment s2).
  { intros E. apply mv_ne_false in E. cbn. rewrite <- E. apply transport_same_point. }
  pose proof (Screw_add_Screw _ _ _ _ _ Hs' Hl' Hc' HP) as Eadd'.
  pose proof (Screw_xor_Screw _ _ _ _ _ Hs' Hl' Hc' HP) as Exor'.
  cbn [transported ref_point] in Eadd', Exor'. rewrite mv_ne_refl in Eadd', Exor'.
  pose proof (Screw_add_Screw _ _ _ _ _ Hs Hl Hc HP) as Eadd.
  pose proof (Screw_xor_Screw _ _ _ _ _ Hs Hl Hc HP) as Exor.
  eexists _, _. split; [apply (change_point_point _ _ _ _ Hl HP) |].
  destruct (mv_ne (ref_point s1) (ref_point s2)) eqn:E.
  - cbv zeta in Eadd, Exor. split.
    + eexists _, _, _, _, _.
      split; [exact Eadd' |]. split; [exact Eadd |].
      split; [apply lookup_new_fresh | apply lookup_new_second].
    + eexists _, _, _, _, _.
      split; [exact Exor' |]. split; [exact Exor |].
      split; [apply lookup_new_fresh | apply lookup_new_second].
  - pose proof (Hmoment eq_refl) as Hm.
    split.
    + eexists _, _, _, _, _.
      split; [exact Eadd' |]. split; [exact Eadd |].
      split; [apply lookup_new_fresh |].
      rewrite lookup_new_fresh, Hm. reflexivity.
    + eexists _, _, _, _, _.
      split; [exact Exor' |]. split; [exact Exor |].
      split; [apply lookup_new_fresh |].
      rewrite lookup_new_fresh, Hm. reflexivity.
Qed.

End TransportExtras.

(** ** Sums of screws, scalar multiples and the comoment *)

Section ComomentValue.
Context {MV : Type} {ops : MultiVector MV}.

Lemma comoment_Some (st : store MV) (coscrew screw : loc) (cs s : object MV) :
  st !! coscrew = Some cs ->
  st !! screw = Some s ->
  comoment coscrew screw st
  = Return (mv_grade
              ((- grade_involution (direction cs)) * grade_involution (moment s)
               + direction s * moment cs)%mv 0) st.
Proof.
  intros Hc Hs. unfold comoment.
  rewrite (bind_Return _ _ _ _ _ (deref_Some _ _ _ Hc)).
  now rewrite (bind_Return _ _ _ _ _ (deref_Some _ _ _ Hs)).
Qed.

End ComomentValue.

Section LinearExtras.
Context {MV : Type} {ops : MultiVector MV}
        {laws : MultiVectorLaws MV} {lin : MultiVectorLinearLaws MV}.
Implicit Types (st : store MV) (o : object MV) (l : loc).

(** X4. Two screws at the same point: [s1 + s2] and [s2 + s1] have the same
    fields. *)
Theorem Screw_add_commutes_at_shared_point st l1 l2 s1 s2 :
  st !! l1 = Some s1 ->
  st !! l2 = Some s2 ->
  class_of s1 = Screw ->
  class_of s2 = Screw ->
  mv_ne (mv_grade (ref_point s1) 1) (ref_point s1) = false ->
  ref_point s1 = ref_point s2 ->
  exists r st' r' st'' o,
    Screw__add__ l1 (VObj l2) st = Return r st'
    /\ Screw__add__ l2 (VObj l1) st = Return r' st''
    /\ st' !! r = Some o
    /\ st'' !! r' = Some o.
Proof.
  intros H1 H2 C1 C2 HP1 HPP.
  assert (HP2 : mv_ne (mv_grade (ref_point s2) 1) (ref_point s2) = false)
    by now rewrite <- HPP.
  pose proof (Screw_add_Screw _ _ _ _ _ H1 H2 C2 HP1) as E12.
  pose proof (Screw_add_Screw _ _ _ _ _ H2 H1 C1 HP2) as E21.
  rewrite <- HPP, mv_ne_refl in E12, E21.
  eexists _, _, _, _, _.
  split; [exact E12 |]. split; [exact E21 |].
  split; [apply lookup_new_fresh |].
  rewrite lookup_new_fresh.
  now rewrite (mv_add_comm (direction s2)), (mv_add_comm (moment s2)).
Qed.

(** X5. Two screws at any two points: [s1 + s2] is anchored at the point of
    [s1] and [s2 + s1] at the point of [s2], and moving the first sum to the
    point of [s2] gives the fields of the second. *)
Theorem Screw_add_commutes_up_to_transport st l1 l2 s1 s2 :
  st !! l1 = Some s1 ->
  st !! l2 = Some s2 ->
  class_of s1 = Screw ->
  class_of s2 = Screw ->
  mv_ne (mv_grade (ref_point s1) 1) (ref_point s1) = false ->
  mv_ne (mv_grade (ref_point s2) 1) (ref_point s2) = false ->
  exists r st1 t st2 r' st' o,
    Screw__add__ l1 (VObj l2) st = Return r st1
    /\ change_point r (ref_point s2) st1 = Return t st2
    /\ Screw__add__ l2 (VObj l1) st = Return r' st'
    /\ st2 !! t = Some o
    /\ st' !! r' = Some o
    /\ ref_point o = ref_point s2.
Proof.
  intros H1 H2 C1 C2 HP1 HP2.
  pose proof (Screw_add_Screw _ _ _ _ _ H1 H2 C2 HP1) as E12.
  pose proof (Screw_add_Screw _ _ _ _ _ H2 H1 C1 HP2) as E21.
  rewrite (mv_ne_sym (ref_point s2) (ref_point s1)) in E21.
  destruct (mv_ne (ref_point s1) (ref_point s2)) eqn:E; cbv zeta in E12, E21.
  - eexists _, _, _, _, _, _, _.
    split; [exact E12 |].
    split; [apply (change_point_point _ _ _ _ (lookup_new_second _ _ _) HP2) |].
    split; [exact E21 |].
    split; [apply lookup_new_fresh |].
    split; [| reflexivity].
    rewrite lookup_new_second.
    unfold transported; cbn [class_of ref_point direction moment].
    now rewrite (sum_moved _ _ _ _ _ _ lin), (mv_add_comm (direction s2)).
  - apply mv_ne_false in E.
    eexists _, _, _, _, _, _, _.
    split; [exact E12 |].
    split; [apply (change_point_point _ _ _ _ (lookup_new_fresh _ _) HP2) |].
    split; [exact E21 |].
    split; [apply lookup_new_fresh |].
    split; [| reflexivity].
    rewrite lookup_new_fresh.
    unfold transported; cbn [class_of ref_point direction moment].
    rewrite E, transport_same_point.
    now rewrite (mv_add_comm (direction s2)), (mv_add_comm (moment s2)).
Qed.

Lemma CoScrew_rmul_int st self cs (k : Z) :
  st !! self = Some cs ->
  mv_ne (mv_grade (ref_point cs) 1) (ref_point cs) = false ->
  CoScrew__rmul__ self (VInt k) st
  = Return (length st)
      (st ++ [Object CoScrew (ref_point cs)
                (mv_scale k (direction cs)) (mv_scale k (moment cs))]).
Proof.
  intros Hs HP. cbn [CoScrew__rmul__].
  rewrite (bind_Return _ _ _ _ _ (deref_Some _ _ _ Hs)).
  now apply init_point.
Qed.

(** X6. The method [CoScrew.__rmul__], which Python calls for [k * cs] when
    [k] is an int: called on a co-screw [cs] with an int [k] it returns the
    new object [CoScrew(ref_point, k*direction, k*moment)]; called with a
    multivector, [None] or a (co)screw as its argument it raises the scalar
    type error. *)
Theorem CoScrew_rmul_behaviour st self cs (scalar : value MV) :
  st !! self = Some cs ->
  mv_ne (mv_grade (ref_point cs) 1) (ref_point cs) = false ->
  valid_value st scalar ->
  match scalar with
  | VInt k =>
      CoScrew__rmul__ self scalar st
      = Return (length st)
          (st ++ [Object CoScrew (ref_point cs)
                    (mv_scale k (direction cs)) (mv_scale k (moment cs))])
  | _ =>
      exists t, CoScrew__rmul__ self scalar st = Raise (TypeError_scalar t)
                /\ t <> TInt
  end.
Proof.
  intros Hs HP Hok. destruct scalar as [l | k | m |]; cbn [CoScrew__rmul__].
  - destruct (Hok l eq_refl) as [o Hl].
    rewrite (bind_Return _ _ _ _ _ (type_VObj _ _ _ Hl)).
    eexists. split; [reflexivity | discriminate].
  - now apply CoScrew_rmul_int.
  - eexists. split; [reflexivity | discriminate].
  - eexists. split; [reflexivity | discriminate].
Qed.

(** X7. Scalar multiplication distributes over the sum of scalars:
    [(j + k) * cs] has the fields of [j * cs + k * cs]. *)
Theorem CoScrew_rmul_distributes st self cs (j k : Z) :
  st !! self = Some cs ->
  mv_ne (mv_grade (ref_point cs) 1) (ref_point cs) = false ->
  exists a st1 b st2 c st3 d st4 o,
    CoScrew__rmul__ self (VInt (j + k)) st = Return a st1
    /\ CoScrew__rmul__ self (VInt j) st = Return b st2
    /\ CoScrew__rmul__ self (VInt k) st2 = Return c st3
    /\ CoScrew__add__ b (VObj c) st3 = Return d st4
    /\ st1 !! a = Some o
    /\ st4 !! d = Some o.
Proof.
  intros Hs HP.
  pose proof (CoScrew_rmul_int st self cs (j + k) Hs HP) as Ejk.
  pose proof (CoScrew_rmul_int st self cs j Hs HP) as Ej.
  set (pj := Object CoScrew (ref_point cs) (mv_scale j (direction cs)) (mv_scale j (moment cs))) in *.
  pose proof (lookup_new_old st pj _ _ Hs) as Hs2.
  pose proof (CoScrew_rmul_int (st ++ [pj]) self cs k Hs2 HP) as Ek.
  set (pk := Object CoScrew (ref_point cs) (mv_scale k (direction cs)) (mv_scale k (moment cs))) in *.
  assert (Hb : ((st ++ [pj]) ++ [pk]) !! length st = Some pj).
  { apply lookup_new_old, lookup_new_fresh. }
  pose proof (CoScrew_add_CoScrew _ _ _ _ _ Hb (lookup_new_fresh (st ++ [pj]) pk) eq_refl HP)
    as Eadd.
  eexists _, _, _, _, _, _, _, _, _.
  split; [exact Ejk |].
  split; [exact Ej |].
  split; [exact Ek |].
  split; [exact Eadd |].
  split; [apply lookup_new_fresh |].
  rewrite lookup_new_fresh. subst pj pk. cbn.
  now rewrite !mv_scale_add.
Qed.

(** X8. The comoment is additive in its co-screw argument:
    [comoment(cs1 + cs2, s) = comoment(cs1, s) + comoment(cs2, s)]. *)
Theorem comoment_additive_in_coscrew st l1 l2 ls cs1 cs2 s :
  st !! l1 = Some cs1 ->
  st !! l2 = Some cs2 ->
  st !! ls = Some s ->
  class_of cs2 = CoScrew ->
  mv_ne (mv_grade (ref_point cs1) 1) (ref_point cs1) = false ->
  exists r st' m1 m2,
    CoScrew__add__ l1 (VObj l2) st = Return r st'
    /\ comoment l1 ls st' = Return m1 st'
    /\ comoment l2 ls st' = Return m2 st'
    /\ comoment r ls st' = Return (m1 + m2)%mv st'.
Proof.
  intros H1 H2 Hs C2 HP.
  set (sum := Object CoScrew (ref_point cs1)
                (direction cs1 + direction cs2)%mv (moment cs1 + moment cs2)%mv).
  pose proof (lookup_new_old st sum _ _ Hs) as Hs'.
  exists (length st), (st ++ [sum]); eexists _, _.
  split; [apply (CoScrew_add_CoScrew _ _ _ _ _ H1 H2 C2 HP) |].
  split; [apply (comoment_Some _ _ _ _ _ (lookup_new_old st sum _ _ H1) Hs') |].
  split; [apply (comoment_Some _ _ _ _ _ (lookup_new_old st sum _ _ H2) Hs') |].
  rewrite (comoment_Some _ _ _ _ _ (lookup_new_fresh st sum) Hs').
  f_equal. subst sum. cbn [direction moment].
  rewrite grade_involution_add, mv_neg_add, mv_mul_add_l, mv_mul_add_r.
  now rewrite mv_add_swap, mv_grade_add.
Qed.

End LinearExtras.

(** ** Objects are never modified and stay anchored at points *)

Section StoreInvariant.
Context {MV : Type} {ops : MultiVector MV}.
Implicit Types (st : store MV) (o : object MV) (l : loc).

Import Run.

Lemma grows_ret {A} (a : A) : grows (ret (MV := MV) a).
Proof. intros st a' st' Hst [= _ <-]. split; [assumption | reflexivity]. Qed.

Lemma grows_raise {A} (e : exn) : grows (raise (MV := MV) (A := A) e).
Proof. intros st a st' _ [=]. Qed.

Lemma grows_bind {A B} (m : Py MV A) (k : A -> Py MV B) :
  grows m -> (forall a, grows (k a)) -> grows (bind m k).
Proof.
  intros Hm Hk st b st' Hst E. unfold bind in E.
  destruct (m st) as [a st1 |] eqn:Em; [| discriminate].
  destruct (Hm _ _ _ Hst Em) as [Hst1 Hpre1].
  destruct (Hk a _ _ _ Hst1 E) as [Hst' Hpre'].
  split; [assumption | now transitivity st1].
Qed.

Lemma grows_deref l : grows (deref (MV := MV) l).
Proof.
  intros st o st' Hst E. unfold deref in E.
  destruct (st !! l); [| discriminate]. injection E as _ <-.
  split; [assumption | reflexivity].
Qed.

Lemma grows_getattr (attr : object MV -> MV) l : grows (getattr attr l).
Proof. apply grows_bind; [apply grows_deref | intros; apply grows_ret]. Qed.

Lemma grows_type (v : value MV) : grows (type v).
Proof.
  destruct v; cbn; try apply grows_ret.
  apply grows_bind; [apply grows_deref | intros; apply grows_ret].
Qed.

Lemma grows_isinstance (v : value MV) c : grows (isinstance v c).
Proof. apply grows_bind; [apply grows_type | intros; apply grows_ret]. Qed.

Lemma grows_init cls (P D M : MV) : grows (__init__ cls P D M).
Proof.
  intros st l st' Hst E. unfold __init__ in E.
  destruct (mv_ne (mv_grade P 1) P) eqn:HP; [discriminate |].
  injection E as _ <-. split.
  - apply Forall_app. split; [assumption |]. now apply Forall_singleton.
  - now apply prefix_app_r.
Qed.

Lemma grows_change_point l (Q : MV) : grows (change_point l Q).
Proof. apply grows_bind; [apply grows_deref | intros; apply grows_init]. Qed.

Ltac grows_steps :=
  repeat first
    [ apply grows_ret | apply grows_raise | apply grows_deref
    | apply grows_getattr | apply grows_type | apply grows_isinstance
    | apply grows_init | apply grows_change_point
    | apply grows_bind; [| intros ?]
    | match goal with
      | |- grows (match ?b with _ => _ end) => destruct b
      end ].

Lemma grows_Screw_add l (other : value MV) : grows (Screw__add__ l other).
Proof. unfold Screw__add__. grows_steps. Qed.

Lemma grows_Screw_xor l (other : value MV) : grows (Screw__xor__ l other).
Proof. unfold Screw__xor__. grows_steps. Qed.

Lemma grows_CoScrew_add l (other : value MV) : grows (CoScrew__add__ l other).
Proof. unfold CoScrew__add__. grows_steps. Qed.

Lemma grows_CoScrew_rmul l (scalar : value MV) : grows (CoScrew__rmul__ l scalar).
Proof. unfold CoScrew__rmul__. grows_steps. Qed.

Lemma grows_comoment (c s : loc) : grows (comoment (MV := MV) c s).
Proof. unfold comoment. grows_steps. Qed.

Lemma call_grows st st' : anchored st -> call st st' -> anchored st' /\ st `prefix_of` st'.
Proof.
  intros Hst Hcall. revert Hst.
  destruct Hcall as [cls P D M st l st' E | self Q st l st' E | self other st l st' E
                    | self other st l st' E | self other st l st' E
                    | self scalar st l st' E | c s st m st' E]; intros Hst.
  - exact (grows_init _ _ _ _ _ _ _ Hst E).
  - exact (grows_change_point _ _ _ _ _ Hst E).
  - exact (grows_Screw_add _ _ _ _ _ Hst E).
  - exact (grows_Screw_xor _ _ _ _ _ Hst E).
  - exact (grows_CoScrew_add _ _ _ _ _ Hst E).
  - exact (grows_CoScrew_rmul _ _ _ _ _ Hst E).
  - exact (grows_comoment _ _ _ _ _ Hst E).
Qed.

Lemma reachable_anchored st : reachable st -> anchored st.
Proof.
  induction 1 as [| st st' _ IH Hcall]; [constructor |].
  now apply (call_grows st st').
Qed.

(** X10. Whatever calls were made so far, one more returning call of a
    constructor, method or function of [gscrew/screw.py] leaves every
    existing object where and as it was, and every object of the new store
    has a reference point [p] with [p(1) != p] false. *)
Theorem objects_are_immutable_and_anchored st st' :
  reachable st ->
  call st st' ->
  (forall l o, st !! l = Some o -> st' !! l = Some o)
  /\ (forall l o, st' !! l = Some o ->
                  mv_ne (mv_grade (ref_point o) 1) (ref_point o) = false).
Proof.
  intros Hst Hcall.
  destruct (call_grows st st' (reachable_anchored _ Hst) Hcall) as [Hanch [k ->]].
  split.
  - intros l o. apply lookup_app_l_Some.
  - intros l o Hl. unfold anchored in Hanch. rewrite Forall_lookup in Hanch.
    exact (Hanch l o Hl).
Qed.

(** X11. Between objects the library has built itself the operators do not
    raise: for screws [s1], [s2] and co-screws [c1], [c2] of a reachable
    store, [s1 + s2], [s1 ^ s2], [c1 + c2] and the transport of any object
    to the reference point of any other all return. *)
Theorem operators_return_on_built_objects st l1 l2 o1 o2 :
  reachable st ->
  st !! l1 = Some o1 ->
  st !! l2 = Some o2 ->
  (exists r st', change_point l1 (ref_point o2) st = Return r st')
  /\ (class_of o2 = Screw ->
      (exists r st', Screw__add__ l1 (VObj l2) st = Return r st')
      /\ (exists r st', Screw__xor__ l1 (VObj l2) st = Return r st'))
  /\ (class_of o2 = CoScrew ->
      exists r st', CoScrew__add__ l1 (VObj l2) st = Return r st').
Proof.
  intros Hst H1 H2.
  pose proof (reachable_anchored _ Hst) as Hanch.
  unfold anchored in Hanch. rewrite Forall_lookup in Hanch.
  pose proof (Hanch _ _ H1) as HP1. pose proof (Hanch _ _ H2) as HP2. cbv beta in HP1, HP2.
  split; [| split].
  - eexists _, _. apply (change_point_point _ _ _ _ H1 HP2).
  - intros C2. split.
    + rewrite (Screw_add_Screw _ _ _ _ _ H1 H2 C2 HP1).
      destruct (mv_ne (ref_point o1) (ref_point o2)); eexists _, _; reflexivity.
    + rewrite (Screw_xor_Screw _ _ _ _ _ H1 H2 C2 HP1).
      destruct (mv_ne (ref_point o1) (ref_point o2)); eexists _, _; reflexivity.
  - intros C2. eexists _, _. apply (CoScrew_add_CoScrew _ _ _ _ _ H1 H2 C2 HP1).
Qed.

End StoreInvariant.

(** ** The point-free variant *)

Section PointFree.
Context {MV : Type} {ops : MultiVector MV} {laws : MultiVectorLaws MV}.
Implicit Types (st : store MV) (o : object MV) (l : loc).

Import Variants.

(** X12. The sum of two point-free screws, and of two point-free co-screws, does
    not depend on the order of the operands. *)
Theorem Src_add_commutes (D1 M1 D2 M2 : MV) :
  Src.Screw__add__ (Src.Object Src.Screw D1 M1) (Src.VObj (Src.Object Src.Screw D2 M2))
  = Src.Screw__add__ (Src.Object Src.Screw D2 M2) (Src.VObj (Src.Object Src.Screw D1 M1))
  /\ Src.CoScrew__add__ (Src.Object Src.CoScrew D1 M1)
       (Src.VObj (Src.Object Src.CoScrew D2 M2))
     = Src.CoScrew__add__ (Src.Object Src.CoScrew D2 M2)
         (Src.VObj (Src.Object Src.CoScrew D1 M1)).
Proof.
  cbn. now rewrite (mv_add_comm D1 D2), (mv_add_comm M1 M2).
Qed.

(** X13. The point-free operators compute what the point-aware ones compute,
    with the reference point left out: the sum of two co-screws (at any
    points), an int multiple of a co-screw, and the sum of two screws that
    share their reference point. *)
Theorem point_free_agrees_with_point_aware st l1 l2 o1 o2 (o1' o2' : Src.object MV) :
  st !! l1 = Some o1 ->
  st !! l2 = Some o2 ->
  mv_ne (mv_grade (ref_point o1) 1) (ref_point o1) = false ->
  drop_point o1 = Some o1' ->
  drop_point o2 = Some o2' ->
  (class_of o2 = CoScrew ->
   exists r st' o,
     CoScrew__add__ l1 (VObj l2) st = Return r st'
     /\ st' !! r = Some o
     /\ option_map inr (drop_point o) = Some (Src.CoScrew__add__ o1' (Src.VObj o2')))
  /\ (forall k : Z,
      exists r st' o,
        CoScrew__rmul__ l1 (VInt k) st = Return r st'
        /\ st' !! r = Some o
        /\ option_map inr (drop_point o) = Some (Src.CoScrew__rmul__ o1' (Src.VInt k)))
  /\ (class_of o2 = Screw ->
      ref_point o1 = ref_point o2 ->
      exists r st' o,
        Screw__add__ l1 (VObj l2) st = Return r st'
        /\ st' !! r = Some o
        /\ option_map inr (drop_point o) = Some (Src.Screw__add__ o1' (Src.VObj o2'))).
Proof.
  intros H1 H2 HP D1 D2. split; [| split].
  - intros C2. eexists _, _, _.
    split; [apply (CoScrew_add_CoScrew _ _ _ _ _ H1 H2 C2 HP) |].
    split; [apply lookup_new_fresh |].
    unfold drop_point in D1, D2. rewrite C2 in D2. injection D2 as <-.
    destruct (class_of o1); [discriminate | |]; injection D1 as <-; reflexivity.
  - intros k. eexists _, _, _.
    split; [unfold CoScrew__rmul__;
            rewrite (bind_Return _ _ _ _ _ (deref_Some _ _ _ H1));
            apply (init_point _ _ _ _ _ HP) |].
    split; [apply lookup_new_fresh |].
    unfold drop_point in D1.
    destruct (class_of o1); [discriminate | |]; injection D1 as <-; reflexivity.
  - intros C2 HPP.
    pose proof (Screw_add_Screw _ _ _ _ _ H1 H2 C2 HP) as E.
    rewrite <- HPP, mv_ne_refl in E.
    eexists _, _, _. split; [exact E |].
    split; [apply lookup_new_fresh |].
    unfold drop_point in D1, D2. rewrite C2 in D2. injection D2 as <-.
    destruct (class_of o1); [discriminate | |]; injection D1 as <-; reflexivity.
Qed.

End PointFree.

(** ** The loops of the arm kinematics script *)

Section ScriptLoops.
Context {MV : Type} {ops : MultiVector MV}.
Implicit Types (st : store MV) (o : object MV) (l : loc).

Import ArmKinematics.

Lemma getitem_out_of_range {A} (L : list A) (i : Z) st :
  Z.of_nat (length L) <= i -> getitem L i st = Raise IndexError.
Proof.
  intros Hi. unfold getitem.
  rewrite (proj2 (Z.ltb_ge i 0)) by lia.
  rewrite (proj2 (Z.ltb_ge i 0)) by lia.
  now rewrite (proj2 (Z.leb_le _ _) Hi).
Qed.

Lemma for_each_app {A S} (xs ys : list A) (body : A -> S -> Py MV S) (acc : S) st :
  for_each (xs ++ ys) body acc st
  = (acc' <- for_each xs body acc ;; for_each ys body acc') st.
Proof.
  revert acc st. induction xs as [| x xs IH]; intros acc st; [reflexivity |].
  cbn [app for_each]. unfold bind.
  destruct (body x acc st) as [a st1 |]; [exact (IH a st1) | reflexivity].
Qed.

Lemma range_0 (n : nat) :
  range 0 (Z.of_nat n) = map (fun k => 0 + Z.of_nat k) (seq 0 n).
Proof. unfold range. now rewrite Z.sub_0_r, Nat2Z.id. Qed.

Lemma make_joints (centers rotors : list MV) (cs rs : list MV) :
  length cs = length rs ->
  Forall (fun c => mv_ne (mv_grade c 1) c = false) cs ->
  forall (k : nat) (acc : list loc) st,
    (forall i c, cs !! i = Some c -> centers !! (k + i)%nat = Some c) ->
    (forall i r, rs !! i = Some r -> rotors !! (k + i)%nat = Some r) ->
    for_each (map (fun i => 0 + Z.of_nat i) (seq k (length cs)))
      (make_joint centers rotors) acc st
    = Return (acc ++ seq (length st) (length cs))
        (st ++ zip_with (fun c r => Object CoScrew c r mv_zero) cs rs).
Proof.
  intros Hlen Hpoints. revert rs Hlen.
  induction Hpoints as [| c cs Hc _ IH]; intros rs Hlen k acc st Hcs Hrs.
  - destruct rs; [| discriminate]. cbn. now rewrite !app_nil_r.
  - destruct rs as [| r rs]; [discriminate |]. injection Hlen as Hlen.
    cbn [length seq map for_each zip_with].
    unfold bind at 1. unfold make_joint at 1.
    assert (Gc : getitem centers (0 + Z.of_nat k) st = Return c st).
    { apply getitem_nonneg; [lia |].
      replace (Z.to_nat (0 + Z.of_nat k)) with (k + 0)%nat by lia. now apply Hcs. }
    assert (Gr : getitem rotors (0 + Z.of_nat k) st = Return r st).
    { apply getitem_nonneg; [lia |].
      replace (Z.to_nat (0 + Z.of_nat k)) with (k + 0)%nat by lia. now apply Hrs. }
    rewrite (bind_Return _ _ _ _ _ Gc), (bind_Return _ _ _ _ _ Gr).
    rewrite (bind_Return _ _ _ _ _ (init_point CoScrew c r mv_zero st Hc)).
    unfold ret at 1.
    rewrite (IH rs Hlen (S k)).
    + rewrite length_app, Nat.add_1_r, <- !app_assoc. reflexivity.
    + intros i c' Hi. replace (S k + i)%nat with (k + S i)%nat by lia. now apply Hcs.
    + intros i r' Hi. replace (S k + i)%nat with (k + S i)%nat by lia. now apply Hrs.
Qed.

End ScriptLoops.

Section ScriptExtras.
Context {MV : Type} {ops : MultiVector MV}.
Implicit Types (st : store MV) (o : object MV) (l : loc).

Import ArmKinematics.

Lemma make_first_joints (n : nat) (centers rotors : list MV) st :
  (n <= length centers)%nat ->
  (n <= length rotors)%nat ->
  Forall (fun c => mv_ne (mv_grade c 1) c = false) (take n centers) ->
  for_each (map (fun i => 0 + Z.of_nat i) (seq 0 n)) (make_joint centers rotors) [] st
  = Return (seq (length st) n)
      (st ++ zip_with (fun c r => Object CoScrew c r mv_zero)
               (take n centers) (take n rotors)).
Proof.
  intros Hc Hr Hpoints.
  assert (Hlc : length (take n centers) = n) by (rewrite length_take; lia).
  assert (Hlr : length (take n rotors) = n) by (rewrite length_take; lia).
  pose proof (make_joints centers rotors (take n centers) (take n rotors)
                ltac:(congruence) Hpoints 0%nat [] st) as E.
  rewrite Hlc in E. apply E.
  - intros i c Hi. apply lookup_take_Some in Hi. tauto.
  - intros i r Hi. apply lookup_take_Some in Hi. tauto.
Qed.

(** X14. Lines 28-33 with [nb_joints = n]: when the first [n] rotation centers
    are points and there are at least [n] centers and [n] rotors, the loop
    appends the co-screws [CoScrew(center, rotor, 0)] to the store, in joint
    order, and returns their references. *)
Theorem joint_comotors_builds_the_chain (n : nat) (centers rotors : list MV) st :
  (n <= length centers)%nat ->
  (n <= length rotors)%nat ->
  Forall (fun c => mv_ne (mv_grade c 1) c = false) (take n centers) ->
  joint_comotors (Z.of_nat n) centers rotors st
  = Return (seq (length st) n)
      (st ++ zip_with (fun c r => Object CoScrew c r mv_zero)
               (take n centers) (take n rotors)).
Proof.
  intros Hc Hr Hpoints. unfold joint_comotors. rewrite range_0.
  now apply make_first_joints.
Qed.

(** X15. Lines 28-33 with [nb_joints] larger than the number [n] of usable
    entries: after [n] joints the loop raises [IndexError] when the centers
    or the rotors run out, and the constructor's [TypeError] when center
    [n] is not a point. *)
Theorem joint_comotors_fails_at_first_bad_joint
    (n : nat) (nb_joints : Z) (centers rotors : list MV) st :
  Z.of_nat n < nb_joints ->
  (n <= length centers)%nat ->
  (n <= length rotors)%nat ->
  Forall (fun c => mv_ne (mv_grade c 1) c = false) (take n centers) ->
  (length centers = n ->
   joint_comotors nb_joints centers rotors st = Raise IndexError)
  /\ (length rotors = n -> (n < length centers)%nat ->
      joint_comotors nb_joints centers rotors st = Raise IndexError)
  /\ (forall c r,
        centers !! n = Some c -> rotors !! n = Some r ->
        mv_ne (mv_grade c 1) c = true ->
        joint_comotors nb_joints centers rotors st = Raise TypeError_ref_point).
Proof.
  intros HN Hc Hr Hpoints.
  assert (Hloop : forall e,
    (forall acc st', make_joint centers rotors (0 + Z.of_nat n) acc st' = Raise e) ->
    joint_comotors nb_joints centers rotors st = Raise e).
  { intros e Hbody. unfold joint_comotors, range.
    replace (Z.to_nat (nb_joints - 0)) with (n + S (Z.to_nat nb_joints - S n))%nat by lia.
    rewrite seq_app, map_app.
    change (for_each ?xs _ [] st) with (for_each xs (make_joint centers rotors) [] st).
    rewrite for_each_app.
    rewrite (bind_Return _ _ _ _ _ (make_first_joints n centers rotors st Hc Hr Hpoints)).
    cbn [seq map for_each]. apply bind_Raise, Hbody. }
  split; [| split].
  - intros Hlen. apply Hloop. intros acc st'. unfold make_joint.
    apply bind_Raise, getitem_out_of_range. lia.
  - intros Hlen Hlt. apply Hloop. intros acc st'. unfold make_joint.
    destruct (lookup_lt_is_Some_2 centers n Hlt) as [c Hcn].
    rewrite (bind_Return _ _ st' c st').
    + apply bind_Raise, getitem_out_of_range. lia.
    + apply getitem_nonneg; [lia |]. now replace (Z.to_nat (0 + Z.of_nat n)) with n by lia.
  - intros c r Hcn Hrn Hbad. apply Hloop. intros acc st'. unfold make_joint.
    rewrite (bind_Return _ _ st' c st').
    + rewrite (bind_Return _ _ st' r st').
      * apply bind_Raise. now apply init_not_point.
      * apply getitem_nonneg; [lia |]. now replace (Z.to_nat (0 + Z.of_nat n)) with n by lia.
    + apply getitem_nonneg; [lia |]. now replace (Z.to_nat (0 + Z.of_nat n)) with n by lia.
Qed.

Variable composition : loc -> loc -> Py MV loc.

(** X16. Lines 37-40 on short chains: with no joint the script raises
    [IndexError]; with [nb_joints] at most 2 the total comotor is the last
    joint of the list, [composition] is not called and the store is left as
    it is. *)
Theorem total_motion_short_chains (nb_joints : Z) (joints : list loc) (last : loc) st :
  total_motion composition nb_joints [] st = Raise IndexError
  /\ (nb_joints <= 2 ->
      total_motion composition nb_joints (joints ++ [last]) st = Return last st).
Proof.
  split; [reflexivity |].
  intros Hn. unfold total_motion.
  rewrite (bind_Return _ _ _ _ _ (getitem_last joints last st)).
  unfold range. replace (Z.to_nat (nb_joints - 1 - 1)) with 0%nat by lia.
  reflexivity.
Qed.

(** X17. Lines 37-40 on a chain [j0 :: mid ++ [jl]] with [nb_joints] its
    length: the total is [jl] composed with the joints of [mid] from the
    last to the first, whatever [composition] does; the base joint [j0] is
    not an operand, so another base joint gives the same total. *)
Theorem total_motion_composes_inner_joints (j0 j0' jl : loc) (mid : list loc) st :
  total_motion composition (Z.of_nat (length (j0 :: mid ++ [jl]))) (j0 :: mid ++ [jl]) st
  = for_each (reverse mid) (fun joint total => composition total joint) jl st
  /\ total_motion composition (Z.of_nat (length (j0 :: mid ++ [jl]))) (j0 :: mid ++ [jl]) st
     = total_motion composition (Z.of_nat (length (j0' :: mid ++ [jl])))
         (j0' :: mid ++ [jl]) st.
Proof.
  split; [apply total_motion_operands |].
  now rewrite !total_motion_operands.
Qed.

End ScriptExtras.

Section OriginAndPrinting.
Context {MV : Type} {ops : MultiVector MV}
        {laws : MultiVectorLaws MV} {lin : MultiVectorLinearLaws MV}.
Implicit Types (st : store MV) (o : object MV) (l : loc).

Import ArmKinematics Display.

Lemma origin_is_a_point : mv_ne (mv_grade (mv_zero : MV) 1) mv_zero = false.
Proof. rewrite mv_grade_zero. apply mv_ne_refl. Qed.

(** X18. Lines 44-51 print what the finalize and apply steps of the spec give
    whenever moving the total comotor to the origin does not change its
    moment, in particular when it is anchored at the origin already. *)
Theorem extracting_results_right_at_origin (total_comotor : loc) o (end_effector : MV) st :
  st !! total_comotor = Some o ->
  (((mv_zero - ref_point o) ^ direction o)%mv = mv_zero ->
   extracting_results total_comotor end_effector st
   = extracting_results_spec total_comotor end_effector st)
  /\ (ref_point o = mv_zero ->
      extracting_results total_comotor end_effector st
      = extracting_results_spec total_comotor end_effector st).
Proof.
  intros Ht.
  assert (Hsame : ((mv_zero - ref_point o) ^ direction o)%mv = mv_zero ->
                  extracting_results total_comotor end_effector st
                  = extracting_results_spec total_comotor end_effector st).
  { intros Hzero.
    rewrite (extracting_results_eq _ _ _ _ Ht origin_is_a_point).
    rewrite (extracting_results_spec_eq _ _ _ _ Ht origin_is_a_point).
    now rewrite Hzero, mv_sub_0_r. }
  split; [exact Hsame |].
  intros HP. apply Hsame. now rewrite HP, mv_sub_diag, mv_wedge_0_l.
Qed.

(** X9. The comoment is additive in its screw argument, for screws that share
    their reference point:
    [comoment(cs, s1 + s2) = comoment(cs, s1) + comoment(cs, s2)]. *)
Theorem comoment_additive_in_screw st l1 l2 lc s1 s2 cs :
  st !! l1 = Some s1 ->
  st !! l2 = Some s2 ->
  st !! lc = Some cs ->
  class_of s2 = Screw ->
  mv_ne (mv_grade (ref_point s1) 1) (ref_point s1) = false ->
  ref_point s1 = ref_point s2 ->
  exists r st' m1 m2,
    Screw__add__ l1 (VObj l2) st = Return r st'
    /\ comoment lc l1 st' = Return m1 st'
    /\ comoment lc l2 st' = Return m2 st'
    /\ comoment lc r st' = Return (m1 + m2)%mv st'.
Proof.
  intros H1 H2 Hc C2 HP HPP.
  pose proof (Screw_add_Screw _ _ _ _ _ H1 H2 C2 HP) as E.
  rewrite <- HPP, mv_ne_refl in E.
  set (sum := Object Screw (ref_point s1)
                (direction s1 + direction s2)%mv (moment s1 + moment s2)%mv) in *.
  pose proof (lookup_new_old st sum _ _ Hc) as Hc'.
  exists (length st), (st ++ [sum]); eexists _, _.
  split; [exact E |].
  split; [apply (comoment_Some _ _ _ _ _ Hc' (lookup_new_old st sum _ _ H1)) |].
  split; [apply (comoment_Some _ _ _ _ _ Hc' (lookup_new_old st sum _ _ H2)) |].
  rewrite (comoment_Some _ _ _ _ _ Hc' (lookup_new_fresh st sum)).
  f_equal. subst sum. cbn [direction moment].
  rewrite grade_involution_add, mv_mul_add_r, mv_mul_add_l.
  now rewrite mv_add_swap, mv_grade_add.
Qed.

Variable mv_str : MV -> string.

Lemma show_None st self o :
  st !! self = Some o ->
  show mv_str self None st
  = Return (render mv_str (classname (class_of o)) (direction o) (moment o)) st.
Proof.
  intros Hs. unfold show, __repr__.
  now rewrite (bind_Return _ _ _ _ _ (deref_Some _ _ _ Hs)).
Qed.

Lemma show_Some st self o (Q : MV) :
  st !! self = Some o ->
  mv_ne (mv_grade Q 1) Q = false ->
  show mv_str self (Some Q) st
  = Return (render mv_str (classname (class_of o)) (direction o)
              (moment o - ((Q - ref_point o) ^ direction o))%mv)
      (st ++ [transported o Q]).
Proof.
  intros Hs HQ. unfold show.
  rewrite (bind_Return _ _ _ _ _ (change_point_point _ _ _ _ Hs HQ)).
  unfold __repr__.
  now rewrite (bind_Return _ _ _ _ _ (deref_Some _ _ _ (lookup_new_fresh _ _))).
Qed.

(** X19. [show()] prints the class name, the direction and the moment of the
    (co)screw, not its reference point, and leaves the store as it is;
    [show(Q)] raises the constructor's error when [Q] is not a point and
    otherwise prints the same direction with the moment moved to [Q],
    leaving the (co)screw itself unchanged. *)
Theorem show_behaviour st self o :
  st !! self = Some o ->
  show mv_str self None st
  = Return (render mv_str (classname (class_of o)) (direction o) (moment o)) st
  /\ (forall Q : MV,
        mv_ne (mv_grade Q 1) Q = true ->
        show mv_str self (Some Q) st = Raise TypeError_ref_point)
  /\ (forall Q : MV,
        mv_ne (mv_grade Q 1) Q = false ->
        exists st',
          show mv_str self (Some Q) st
          = Return (render mv_str (classname (class_of o)) (direction o)
                      (moment o - ((Q - ref_point o) ^ direction o))%mv) st'
          /\ st' !! self = Some o).
Proof.
  intros Hs. split; [| split].
  - now apply show_None.
  - intros Q HQ. unfold show. apply bind_Raise.
    rewrite (change_point_init _ _ _ _ Hs). now apply init_not_point.
  - intros Q HQ. eexists. split; [now apply show_Some |]. now apply lookup_new_old.
Qed.

(** X20. [s.show(s.ref_point)] prints the text that [s.show()] prints. *)
Theorem show_at_own_point st self o :
  st !! self = Some o ->
  mv_ne (mv_grade (ref_point o) 1) (ref_point o) = false ->
  exists text st',
    show mv_str self None st = Return text st
    /\ show mv_str self (Some (ref_point o)) st = Return text st'.
Proof.
  intros Hs HP. eexists _, _.
  split; [apply (show_None _ _ _ Hs) |].
  rewrite (show_Some _ _ _ _ Hs HP). now rewrite transport_same_point.
Qed.

End OriginAndPrinting.

(** ** The further properties on sample data *)

Lemma sample_store_reachable : Run.reachable Fixtures.sample_store.
Proof.
  refine (Run.reachable_call [Fixtures.screw_a; Fixtures.screw_b; Fixtures.coscrew_a] _ _
            (Run.call_init CoScrew (Fixtures.vec 0 1 0) Cl3.e12 (Fixtures.vec 1 1 0) _ _ _ eq_refl)).
  refine (Run.reachable_call [Fixtures.screw_a; Fixtures.screw_b] _ _
            (Run.call_init CoScrew (Fixtures.vec 1 0 0) Cl3.s (Fixtures.vec 0 0 1) _ _ _ eq_refl)).
  refine (Run.reachable_call [Fixtures.screw_a] _ _
            (Run.call_init Screw (Fixtures.vec 0 1 0) (Fixtures.vec 0 0 1) Cl3.e12 _ _ _ eq_refl)).
  refine (Run.reachable_call [] _ Run.reachable_nil
            (Run.call_init Screw (Fixtures.vec 1 0 0) (Cl3.Mv 2 3 0 0 6 0 0 0)
               (Fixtures.vec 2 5 1) _ _ _ eq_refl)).
Qed.

Lemma change_point_twice_witness :
  exists l2 st2 l3 st3 o',
    change_point 4%nat (Fixtures.vec 0 0 1)
      (Fixtures.sample_store ++ [transported Fixtures.screw_a (Fixtures.vec 0 1 0)])
    = Return l2 st2
    /\ change_point 0%nat (Fixtures.vec 0 0 1) Fixtures.sample_store = Return l3 st3
    /\ st2 !! l2 = Some o' /\ st3 !! l3 = Some o'.
Proof.
  destruct (change_point_twice (laws := Cl3_laws) Fixtures.sample_store 0%nat
              Fixtures.screw_a (Fixtures.vec 0 1 0) (Fixtures.vec 0 0 1)
              eq_refl eq_refl eq_refl)
    as (l1 & st1 & l2 & st2 & l3 & st3 & o' & E1 & E2 & E3 & H2 & H3).
  injection E1 as <- <-. exists l2, st2, l3, st3, o'. auto.
Defined.

Lemma Screw_xor_behaviour_witness :
  exists r st',
    Screw__xor__ 0%nat (VObj 1%nat) Fixtures.sample_store = Return r st'
    /\ st' !! 0%nat = Some Fixtures.screw_a
    /\ st' !! 1%nat = Some Fixtures.screw_b.
Proof.
  destruct (Screw_xor_behaviour (ops := Cl3_MultiVector) Fixtures.sample_store 0%nat
              Fixtures.screw_a (VObj 1%nat) eq_refl eq_refl) as [_ Hxor].
  - intros l [= <-]. now exists Fixtures.screw_b.
  - destruct (Hxor 1%nat Fixtures.screw_b eq_refl eq_refl eq_refl)
      as (r & st' & E & _ & Ha & Hb).
    exists r, st'. auto.
Defined.

Lemma Screw_operators_transport_first_witness :
  exists l' st1 r st2 r' st2' o,
    change_point 1%nat (Fixtures.vec 1 0 0) Fixtures.sample_store = Return l' st1
    /\ Screw__xor__ 0%nat (VObj l') st1 = Return r st2
    /\ Screw__xor__ 0%nat (VObj 1%nat) Fixtures.sample_store = Return r' st2'
    /\ st2 !! r = Some o /\ st2' !! r' = Some o.
Proof.
  destruct (Screw_operators_transport_first (laws := Cl3_laws) Fixtures.sample_store
              0%nat 1%nat Fixtures.screw_a Fixtures.screw_b eq_refl eq_refl eq_refl eq_refl)
    as (l' & st1 & E & _ & r & st2 & r' & st2' & o & E1 & E2 & H1 & H2).
  exists l', st1, r, st2, r', st2', o. auto.
Defined.

Lemma Screw_add_commutes_at_shared_point_witness :
  exists r st' r' st'' o,
    Screw__add__ 0%nat (VObj 1%nat) Fixtures.shared_store = Return r st'
    /\ Screw__add__ 1%nat (VObj 0%nat) Fixtures.shared_store = Return r' st''
    /\ st' !! r = Some o
    /\ st'' !! r' = Some o.
Proof.
  exact (Screw_add_commutes_at_shared_point (laws := Cl3_laws) Fixtures.shared_store
           0%nat 1%nat Fixtures.shared_a Fixtures.shared_b
           eq_refl eq_refl eq_refl eq_refl eq_refl eq_refl).
Defined.

Lemma Screw_add_commutes_up_to_transport_witness :
  exists r st1 t st2 r' st' o,
    Screw__add__ 0%nat (VObj 1%nat) Fixtures.sample_store = Return r st1
    /\ change_point r (Fixtures.vec 0 1 0) st1 = Return t st2
    /\ Screw__add__ 1%nat (VObj 0%nat) Fixtures.sample_store = Return r' st'
    /\ st2 !! t = Some o
    /\ st' !! r' = Some o
    /\ ref_point o = Fixtures.vec 0 1 0.
Proof.
  exact (Screw_add_commutes_up_to_transport (laws := Cl3_laws) (lin := Cl3_linear_laws)
           Fixtures.sample_store 0%nat 1%nat Fixtures.screw_a Fixtures.screw_b
           eq_refl eq_refl eq_refl eq_refl eq_refl eq_refl).
Defined.

Lemma CoScrew_rmul_behaviour_witness :
  CoScrew__rmul__ 2%nat (VInt 3) Fixtures.sample_store
  = Return 4%nat
      (Fixtures.sample_store
         ++ [Object CoScrew (Fixtures.vec 1 0 0) (Cl3.Mv 3 0 0 0 0 0 0 0) (Fixtures.vec 0 0 3)])
  /\ exists t, CoScrew__rmul__ 2%nat (VMv Cl3.e1) Fixtures.sample_store
               = Raise (TypeError_scalar t) /\ t <> TInt.
Proof.
  split.
  - apply (CoScrew_rmul_behaviour (ops := Cl3_MultiVector) Fixtures.sample_store 2%nat
             Fixtures.coscrew_a (VInt 3) eq_refl eq_refl).
    intros l [=].
  - apply (CoScrew_rmul_behaviour (ops := Cl3_MultiVector) Fixtures.sample_store 2%nat
             Fixtures.coscrew_a (VMv Cl3.e1) eq_refl eq_refl).
    intros l [=].
Defined.

Lemma CoScrew_rmul_distributes_witness :
  exists a st1 b st2 c st3 d st4 o,
    CoScrew__rmul__ 2%nat (VInt (2 + 5)) Fixtures.sample_store = Return a st1
    /\ CoScrew__rmul__ 2%nat (VInt 2) Fixtures.sample_store = Return b st2
    /\ CoScrew__rmul__ 2%nat (VInt 5) st2 = Return c st3
    /\ CoScrew__add__ b (VObj c) st3 = Return d st4
    /\ st1 !! a = Some o
    /\ st4 !! d = Some o.
Proof.
  exact (CoScrew_rmul_distributes (lin := Cl3_linear_laws)
           Fixtures.sample_store 2%nat Fixtures.coscrew_a 2 5 eq_refl eq_refl).
Defined.

Lemma comoment_additive_in_coscrew_witness :
  exists r st' m1 m2,
    CoScrew__add__ 2%nat (VObj 3%nat) Fixtures.sample_store = Return r st'
    /\ comoment 2%nat 0%nat st' = Return m1 st'
    /\ comoment 3%nat 0%nat st' = Return m2 st'
    /\ comoment r 0%nat st' = Return (m1 + m2)%mv st'.
Proof.
  exact (comoment_additive_in_coscrew (laws := Cl3_laws) (lin := Cl3_linear_laws)
           Fixtures.sample_store 2%nat 3%nat 0%nat
           Fixtures.coscrew_a Fixtures.coscrew_b Fixtures.screw_a
           eq_refl eq_refl eq_refl eq_refl eq_refl).
Defined.

Lemma comoment_additive_in_screw_witness :
  exists r st' m1 m2,
    Screw__add__ 0%nat (VObj 1%nat) Fixtures.shared_store = Return r st'
    /\ comoment 2%nat 0%nat st' = Return m1 st'
    /\ comoment 2%nat 1%nat st' = Return m2 st'
    /\ comoment 2%nat r st' = Return (m1 + m2)%mv st'.
Proof.
  exact (comoment_additive_in_screw (laws := Cl3_laws) (lin := Cl3_linear_laws)
           Fixtures.shared_store 0%nat 1%nat 2%nat
           Fixtures.shared_a Fixtures.shared_b Fixtures.shared_c
           eq_refl eq_refl eq_refl eq_refl eq_refl eq_refl).
Defined.

Lemma objects_are_immutable_and_anchored_witness :
  (Fixtures.sample_store ++ [Object Screw Cl3.e3 Cl3.s Cl3.e1]) !! 0%nat
  = Some Fixtures.screw_a
  /\ (forall l o,
        (Fixtures.sample_store ++ [Object Screw Cl3.e3 Cl3.s Cl3.e1]) !! l = Some o ->
        mv_ne (mv_grade (ref_point o) 1) (ref_point o) = false).
Proof.
  destruct (objects_are_immutable_and_anchored (ops := Cl3_MultiVector)
              Fixtures.sample_store
              (Fixtures.sample_store ++ [Object Screw Cl3.e3 Cl3.s Cl3.e1])
              sample_store_reachable
              (Run.call_init (ops := Cl3_MultiVector) Screw Cl3.e3 Cl3.s Cl3.e1
                 Fixtures.sample_store 4%nat
                 (Fixtures.sample_store ++ [Object Screw Cl3.e3 Cl3.s Cl3.e1]) eq_refl))
    as [Hold Hanch].
  split; [now apply Hold | exact Hanch].
Defined.

Lemma operators_return_on_built_objects_witness :
  (exists r st', Screw__add__ 0%nat (VObj 1%nat) Fixtures.sample_store = Return r st')
  /\ (exists r st', Screw__xor__ 0%nat (VObj 1%nat) Fixtures.sample_store = Return r st')
  /\ (exists r st', CoScrew__add__ 2%nat (VObj 3%nat) Fixtures.sample_store = Return r st').
Proof.
  destruct (operators_return_on_built_objects (ops := Cl3_MultiVector)
              Fixtures.sample_store 0%nat 1%nat Fixtures.screw_a Fixtures.screw_b
              sample_store_reachable eq_refl eq_refl) as (_ & Hscrew & _).
  destruct (operators_return_on_built_objects (ops := Cl3_MultiVector)
              Fixtures.sample_store 2%nat 3%nat Fixtures.coscrew_a Fixtures.coscrew_b
              sample_store_reachable eq_refl eq_refl) as (_ & _ & Hcoscrew).
  destruct (Hscrew eq_refl) as [Hadd Hxor].
  split; [exact Hadd |]. split; [exact Hxor | exact (Hcoscrew eq_refl)].
Defined.

Lemma Src_add_commutes_witness :
  Src.Screw__add__ Fixtures.pf_wedge_left (Src.VObj Fixtures.pf_wedge_right)
  = Src.Screw__add__ Fixtures.pf_wedge_right (Src.VObj Fixtures.pf_wedge_left).
Proof.
  exact (proj1 (Src_add_commutes (laws := Cl3_laws) Cl3.s Cl3.zero Cl3.e2 Cl3.e1)).
Defined.

Lemma point_free_agrees_with_point_aware_witness :
  exists r st' o,
    CoScrew__add__ 2%nat (VObj 3%nat) Fixtures.sample_store = Return r st'
    /\ st' !! r = Some o
    /\ option_map inr (Variants.drop_point o)
       = Some (Src.CoScrew__add__
                 (Src.Object Src.CoScrew Cl3.s (Fixtures.vec 0 0 1))
                 (Src.VObj (Src.Object Src.CoScrew Cl3.e12 (Fixtures.vec 1 1 0)))).
Proof.
  destruct (point_free_agrees_with_point_aware (laws := Cl3_laws) Fixtures.sample_store
              2%nat 3%nat Fixtures.coscrew_a Fixtures.coscrew_b
              (Src.Object Src.CoScrew Cl3.s (Fixtures.vec 0 0 1))
              (Src.Object Src.CoScrew Cl3.e12 (Fixtures.vec 1 1 0))
              eq_refl eq_refl eq_refl eq_refl eq_refl) as [Hadd _].
  exact (Hadd eq_refl).
Defined.

Lemma joint_comotors_builds_the_chain_witness :
  ArmKinematics.joint_comotors 2 Fixtures.arm_centers Fixtures.arm_rotors Fixtures.sample_store
  = Return [4; 5]%nat (Fixtures.sample_store ++ Fixtures.arm_store).
Proof.
  apply (joint_comotors_builds_the_chain (ops := Cl3_MultiVector) 2
           Fixtures.arm_centers Fixtures.arm_rotors Fixtures.sample_store).
  - cbn. lia.
  - cbn. lia.
  - repeat constructor.
Defined.

Lemma joint_comotors_fails_at_first_bad_joint_witness :
  ArmKinematics.joint_comotors 6 Fixtures.arm_centers Fixtures.arm_rotors [] = Raise IndexError
  /\ ArmKinematics.joint_comotors 2 [Fixtures.vec 0 0 10; Cl3.e12] Fixtures.arm_rotors []
     = Raise TypeError_ref_point.
Proof.
  split.
  - destruct (joint_comotors_fails_at_first_bad_joint (ops := Cl3_MultiVector) 2 6
                Fixtures.arm_centers Fixtures.arm_rotors []) as [Hshort _].
    + lia.
    + cbn. lia.
    + cbn. lia.
    + repeat constructor.
    + exact (Hshort eq_refl).
  - destruct (joint_comotors_fails_at_first_bad_joint (ops := Cl3_MultiVector) 1 2
                [Fixtures.vec 0 0 10; Cl3.e12] Fixtures.arm_rotors []) as (_ & _ & Hbad).
    + lia.
    + cbn. lia.
    + cbn. lia.
    + repeat constructor.
    + exact (Hbad Cl3.e12 Cl3.s eq_refl eq_refl eq_refl).
Defined.

Lemma total_motion_short_chains_witness :
  ArmKinematics.total_motion Fixtures.sample_composition 2 [0; 1]%nat Fixtures.arm_store
  = Return 1%nat Fixtures.arm_store.
Proof.
  apply (total_motion_short_chains Fixtures.sample_composition 2 [0%nat] 1%nat
           Fixtures.arm_store).
  lia.
Defined.

Lemma extracting_results_right_at_origin_witness :
  ArmKinematics.extracting_results 0%nat Fixtures.arm_end_effector Fixtures.wedge_store
  = ArmKinematics.extracting_results_spec 0%nat Fixtures.arm_end_effector Fixtures.wedge_store.
Proof.
  apply (extracting_results_right_at_origin (laws := Cl3_laws) (lin := Cl3_linear_laws)
           0%nat Fixtures.wedge_left Fixtures.arm_end_effector Fixtures.wedge_store eq_refl).
  reflexivity.
Defined.

Lemma show_behaviour_witness :
  Display.show Fixtures.sample_str 0%nat None Fixtures.sample_store
  = Return (Display.render Fixtures.sample_str "Screw"
              (Cl3.Mv 2 3 0 0 6 0 0 0) (Fixtures.vec 2 5 1)) Fixtures.sample_store
  /\ Display.show Fixtures.sample_str 0%nat (Some Cl3.e12) Fixtures.sample_store
     = Raise TypeError_ref_point.
Proof.
  destruct (show_behaviour (ops := Cl3_MultiVector) Fixtures.sample_str
              Fixtures.sample_store 0%nat Fixtures.screw_a eq_refl) as (Hnone & Hbad & _).
  split; [exact Hnone | exact (Hbad Cl3.e12 eq_refl)].
Defined.

Lemma show_at_own_point_witness :
  exists text st',
    Display.show Fixtures.sample_str 0%nat None Fixtures.sample_store
    = Return text Fixtures.sample_store
    /\ Display.show Fixtures.sample_str 0%nat (Some (Fixtures.vec 1 0 0)) Fixtures.sample_store
       = Return text st'.
Proof.
  exact (show_at_own_point (laws := Cl3_laws) Fixtures.sample_str Fixtures.sample_store
           0%nat Fixtures.screw_a eq_refl eq_refl).
Defined.
